(** * pdf_processor.py: a shallow embedding of the PDF compress/split utility

    The development follows [src/pdf_processor.py].  Python integers are
    [Z], file sizes (results of [os.path.getsize]) are [N], paths and
    messages are [string], the file system is a finite map from paths to
    files, and the effectful methods of [PDFProcessor] run in a small
    state-and-exception monad over a record holding the file system, a log
    of the system calls performed, and the two output streams. *)

From Stdlib Require Import Ascii ZArith Lia.
From stdpp Require Import gmap strings list fin_maps pretty.

Open Scope Z_scope.

(** ** Exceptions and results *)

(** The exception classes the program can raise or meet.  [SystemExit] is
    the only one that is not a subclass of [Exception]. *)
Inductive exn : Type :=
| ValueError (msg : string)
| RuntimeError (msg : string)
| FileNotFoundError (path : string)
| FileExistsError (path : string)
| IsADirectoryError (path : string)
| PdfReadError (path : string)
| OSError (msg : string)
| ZeroDivisionError
| SystemExit (code : Z).

Inductive result (A : Type) : Type :=
| Ok (a : A)
| Raise (e : exn).
Arguments Ok {A} a.
Arguments Raise {A} e.

(** [isinstance(e, Exception)] *)
Definition is_Exception (e : exn) : bool :=
  match e with SystemExit _ => false | _ => true end.

(** ** [os.path] on POSIX paths *)

Module os_path.

Definition is_sep (c : ascii) : bool := bool_decide (c = "/"%char).
Definition is_dot (c : ascii) : bool := bool_decide (c = "."%char).

Fixpoint all_chars (f : ascii → bool) (s : string) : bool :=
  match s with
  | EmptyString => true
  | String c s' => f c && all_chars f s'
  end.

Fixpoint ends_with_sep (s : string) : bool :=
  match s with
  | EmptyString => false
  | String c EmptyString => is_sep c
  | String _ s' => ends_with_sep s'
  end.

Definition starts_with_sep (s : string) : bool :=
  match s with
  | String c _ => is_sep c
  | EmptyString => false
  end.

(** [p[:i], p[i:]] for [i = p.rfind('/') + 1] *)
Fixpoint split_at_last_sep (s : string) : string * string :=
  match s with
  | EmptyString => (EmptyString, EmptyString)
  | String c s' =>
      let '(h, t) := split_at_last_sep s' in
      match h with
      | EmptyString =>
          if is_sep c then (String c EmptyString, t)
          else (EmptyString, String c t)
      | _ => (String c h, t)
      end
  end.

(** [s.rstrip('/')] *)
Fixpoint rstrip_sep (s : string) : string :=
  match s with
  | EmptyString => EmptyString
  | String c s' =>
      match rstrip_sep s' with
      | EmptyString => if is_sep c then EmptyString else String c EmptyString
      | r => String c r
      end
  end.

Definition basename (p : string) : string := snd (split_at_last_sep p).

Definition dirname (p : string) : string :=
  let head := fst (split_at_last_sep p) in
  if all_chars is_sep head then head else rstrip_sep head.

(** [(s[:i], s[i:])] for [i = s.rfind('.')], when there is a dot *)
Fixpoint split_at_last_dot (s : string) : option (string * string) :=
  match s with
  | EmptyString => None
  | String c s' =>
      match split_at_last_dot s' with
      | Some (a, b) => Some (String c a, b)
      | None => if is_dot c then Some (EmptyString, s) else None
      end
  end.

(** [genericpath._splitext]: leading dots of the file name do not start
    an extension. *)
Definition splitext (p : string) : string * string :=
  let '(head, tail) := split_at_last_sep p in
  match split_at_last_dot tail with
  | Some (root, ext) =>
      if all_chars is_dot root then (p, EmptyString)
      else (head +:+ root, ext)
  | None => (p, EmptyString)
  end.

(** [posixpath.join] of two components *)
Definition join (a b : string) : string :=
  if starts_with_sep b then b
  else if bool_decide (a = EmptyString) || ends_with_sep a then a +:+ b
  else a +:+ "/" +:+ b.

End os_path.

(** ** Ghostscript presets *)

(** [PDFProcessor._get_gs_preset] *)
Definition _get_gs_preset (dpi quality : Z) : string :=
  if dpi <=? 72 then "screen"
  else if dpi <=? 150 then "ebook"
  else if dpi <=? 300 then "printer"
  else "prepress".

(** One value of [self.quality_settings]. *)
Record settings : Type := Settings { s_quality : Z; s_dpi : Z }.

(** [self.quality_settings], set up by [PDFProcessor.__init__] *)
Definition quality_settings : gmap string settings :=
  <["low" := Settings 30 72]>
  (<["medium" := Settings 60 150]>
  (<["high" := Settings 90 300]> ∅)).

(** ** The world the program runs in *)

Inductive open_mode : Type := RB | WB | WPlusB.

(** System calls made by the program or by the library functions it calls. *)
Inductive event : Type :=
| EvStat (path : string)
| EvOpen (path : string) (m : open_mode)
| EvUnlink (path : string)
| EvMkdtemp (d : string)
| EvRmtree (d : string)
| EvWhich (prog : string)
| EvSpawn (cmd : list string).

(** Whether writing a file at some path works; a failure comes with the
    text of the [OSError] raised by [open] or by [write]. *)
Inductive write_outcome : Type :=
| WriteOk
| OpenFails (msg : string)
| WriteFails (msg : string).

Section World.

(** A page is opaque: the program only moves pages between documents and
    serializes them. *)
Context {Page : Type}.

(** A regular file: the document a PDF reader finds in it, if any, and
    its length in bytes. *)
Record File : Type := mkFile { f_doc : option (list Page); f_size : N }.

Record state : Type := mkState {
  files : gmap string File;
  dirs : gset string;
  tmp_seq : nat;            (* temporary names handed out so far *)
  log : list event;         (* most recent first *)
  stdout : list string;     (* most recent first *)
  stderr : list string      (* most recent first *)
}.

(** What the program does not decide: the serializer's output length,
    the names [tempfile] picks, the writes that fail, the engine, the
    wording of the exceptions of the library and of the system, and what
    the reader makes of a file that was written over under it. *)
Record env : Type := mkEnv {
  written_size : list Page → N;
  tmp_names : nat → string;
  write_outcome_at : string → write_outcome;
  dir_size : N;
  gs_on_path : bool;
  gs_output : option File;   (* what the engine leaves at its output path *)
  gs_failure : option string; (* str(CalledProcessError), if exit status is not 0 *)
  fmt_mb1 : N → string;      (* f"{n / (1024 * 1024):.1f}" *)
  fmt_mb2 : N → string;      (* f"{n / (1024 * 1024):.2f}" *)
  fmt_reduction : N → N → string;
    (* f"{((o - n) / o) * 100:.1f}" for o, n the two sizes in MB *)
  lib_str : exn → string;
    (* str(e) for an exception raised by the library or the system *)
  stale_read : Page → option Page
    (* the page the reader delivers in place of one whose file was
       written over since it was opened; None when the reader raises *)
}.

(** [str(e)]: the message of an exception the program builds itself is
    the text it was built with; the wording of the others is the
    environment's. *)
Definition exn_str (e : env) (ex : exn) : string :=
  match ex with
  | ValueError m => m
  | RuntimeError m => m
  | OSError m => m
  | SystemExit c => pretty c
  | _ => lib_str e ex
  end.

Definition set_files (f : gmap string File → gmap string File) (st : state) : state :=
  mkState (f (files st)) (dirs st) (tmp_seq st) (log st) (stdout st) (stderr st).
Definition set_dirs (f : gset string → gset string) (st : state) : state :=
  mkState (files st) (f (dirs st)) (tmp_seq st) (log st) (stdout st) (stderr st).
Definition bump_tmp (st : state) : state :=
  mkState (files st) (dirs st) (S (tmp_seq st)) (log st) (stdout st) (stderr st).
Definition add_log (e : event) (st : state) : state :=
  mkState (files st) (dirs st) (tmp_seq st) (e :: log st) (stdout st) (stderr st).
Definition add_stdout (s : string) (st : state) : state :=
  mkState (files st) (dirs st) (tmp_seq st) (log st) (s :: stdout st) (stderr st).
Definition add_stderr (s : string) (st : state) : state :=
  mkState (files st) (dirs st) (tmp_seq st) (log st) (stdout st) (s :: stderr st).

Definition empty_file : File := mkFile None 0.
Definition pdf_file (e : env) (pages : list Page) : File :=
  mkFile (Some pages) (written_size e pages).

(** [d] with a trailing separator; [p] lies in the tree rooted at [d]. *)
Definition dir_prefix (d : string) : string := os_path.join d "".
Definition under (d p : string) : bool := String.prefix (dir_prefix d) p.
Definition in_tree (d p : string) : bool := bool_decide (p = d) || under d p.

Definition path_exists (st : state) (p : string) : bool :=
  bool_decide (is_Some (files st !! p)) || bool_decide (p ∈ dirs st).

(** ** The monad: state and exceptions *)

Definition M (A : Type) : Type := state → result A * state.

Definition ret {A} (a : A) : M A := λ st, (Ok a, st).
Definition raise {A} (e : exn) : M A := λ st, (Raise e, st).
Definition bind {A B} (m : M A) (k : A → M B) : M B :=
  λ st, match m st with
        | (Ok a, st') => k a st'
        | (Raise e, st') => (Raise e, st')
        end.

#[global] Instance M_ret : MRet M := @ret.
#[global] Instance M_bind : MBind M := λ A B k m, bind m k.

(** [try: body finally: fin] *)
Definition try_finally {A} (body : M A) (fin : M unit) : M A :=
  λ st, match body st with
        | (r, st1) =>
            match fin st1 with
            | (Ok _, st2) => (r, st2)
            | (Raise e, st2) => (Raise e, st2)
            end
        end.

(** [try: body except ...: h], where [h e = None] when no clause
    matches [e]. *)
Definition try_except {A} (body : M A) (h : exn → option (M A)) : M A :=
  λ st, match body st with
        | (Ok a, st1) => (Ok a, st1)
        | (Raise e, st1) =>
            match h e with
            | Some k => k st1
            | None => (Raise e, st1)
            end
        end.

Definition get : M state := λ st, (Ok st, st).
Definition modify (f : state → state) : M unit := λ st, (Ok tt, f st).
Definition emit (e : event) : M unit := modify (add_log e).
Definition print (s : string) : M unit := modify (add_stdout s).
Definition print_err (s : string) : M unit := modify (add_stderr s).
Definition when (b : bool) (m : M unit) : M unit := if b then m else ret tt.

(** [for x in xs: body x] *)
Fixpoint for_each {A} (xs : list A) (body : A → M unit) : M unit :=
  match xs with
  | [] => ret tt
  | x :: xs' => body x;; for_each xs' body
  end.

End World.

Arguments File : clear implicits.
Arguments state : clear implicits.
Arguments env : clear implicits.
Arguments M : clear implicits.

(** ** Library and system calls *)

Section Program.

Context {Page : Type} (e : env Page).

#[local] Abbreviation M := (M Page).

(** [os.path.exists(p)] *)
Definition os_path_exists (p : string) : M bool :=
  emit (EvStat p);;
  st ← get;
  ret (path_exists st p).

(** [os.path.getsize(p)] *)
Definition os_path_getsize (p : string) : M N :=
  emit (EvStat p);;
  st ← get;
  match files st !! p with
  | Some f => ret (f_size f)
  | None =>
      if bool_decide (p ∈ dirs st) then ret (dir_size e)
      else raise (FileNotFoundError p)
  end.

(** [open(p, "rb")]: the handle is modelled by the file it reads. *)
Definition open_rb (p : string) : M (File Page) :=
  emit (EvOpen p RB);;
  st ← get;
  match files st !! p with
  | Some f => ret f
  | None =>
      if bool_decide (p ∈ dirs st) then raise (IsADirectoryError p)
      else raise (FileNotFoundError p)
  end.

(** [PdfReader(f)]: the document the file holds when it is opened, as the
    list of its pages.  [compress_pdf] writes nothing to the input's path
    before it has used every page, so there the list is what it reads;
    [split_pdf] uses the pages one by one, through [fetch_page]. *)
Definition PdfReader (p : string) (f : File Page) : M (list Page) :=
  match f_doc f with
  | Some pages => ret pages
  | None => raise (PdfReadError p)
  end.

(** [writer.add_page(page)] on the page list of a [PdfWriter], which
    holds the page as the reader delivered it. *)
Definition add_page (writer : list Page) (page : Page) : list Page :=
  writer ++ [page].

(** [writer.write(stream)] on a stream already open on [p] *)
Definition PdfWriter_write (p : string) (writer : list Page) : M unit :=
  match write_outcome_at e p with
  | WriteOk => modify (set_files <[p := pdf_file e writer]>)
  | OpenFails msg => raise (OSError msg)
  | WriteFails msg => raise (OSError msg)
  end.

(** [with open(p, "wb") as f_out: writer.write(f_out)] *)
Definition write_pdf (p : string) (writer : list Page) : M unit :=
  emit (EvOpen p WB);;
  st ← get;
  if bool_decide (p ∈ dirs st) then raise (IsADirectoryError p)
  else
    match write_outcome_at e p with
    | OpenFails msg => raise (OSError msg)
    | _ =>
        modify (set_files <[p := empty_file]>);;
        PdfWriter_write p writer
    end.

(** The name [tempfile] tries next. *)
Definition next_tmp_name : M string :=
  st ← get;
  modify bump_tmp;;
  ret (tmp_names e (tmp_seq st)).

(** [tempfile.mkdtemp()]: the directory is new, so nothing is in it. *)
Definition mkdtemp : M string :=
  d ← next_tmp_name;
  st ← get;
  if path_exists st d
     || negb (bool_decide (map_Forall (λ p _, under d p = false) (files st)))
     || negb (bool_decide (set_Forall (λ p, under d p = false) (dirs st)))
  then raise (FileExistsError d)
  else
    emit (EvMkdtemp d);;
    modify (set_dirs (λ ds, {[d]} ∪ ds));;
    ret d.

(** [shutil.rmtree(d)], for a tree the caller may remove *)
Definition rmtree (d : string) : M unit :=
  emit (EvRmtree d);;
  modify (set_files (filter (λ kv, in_tree d kv.1 = false)));;
  modify (set_dirs (filter (λ p, in_tree d p = false))).

(** Entering [tempfile.NamedTemporaryFile(delete=True)]: a new file,
    opened for update. *)
Definition NamedTemporaryFile_enter : M string :=
  name ← next_tmp_name;
  st ← get;
  if path_exists st name then raise (FileExistsError name)
  else
    emit (EvOpen name WPlusB);;
    modify (set_files <[name := empty_file]>);;
    ret name.

(** Leaving it: the file is closed and deleted. *)
Definition NamedTemporaryFile_exit (name : string) : M unit :=
  emit (EvUnlink name);;
  modify (set_files (delete name)).

(** [shutil.which(prog)], truthiness of *)
Definition shutil_which (prog : string) : M bool :=
  emit (EvWhich prog);;
  ret (gs_on_path e).

(** [subprocess.run(cmd, check=True)] for the engine writing to [out];
    [CalledProcessError] is the only exception of this call that the
    program handles, and is modelled by the handler's argument. *)
Definition subprocess_run (cmd : list string) (out : string)
    (on_error : string → M unit) : M unit :=
  emit (EvSpawn cmd);;
  match gs_output e with
  | Some f => modify (set_files <[out := f]>)
  | None => ret tt
  end;;
  match gs_failure e with
  | Some detail => on_error detail
  | None => ret tt
  end.

(** ** [class PDFProcessor] *)

(** [_run_ghostscript(self, input_path, output_path, dpi, quality)] *)
Definition _run_ghostscript (input_path output_path : string)
    (dpi quality : Z) : M unit :=
  found ← shutil_which "gs";
  if negb found then
    raise (RuntimeError "Ghostscript (gs) not found. Please install it first.")
  else
    let cmd :=
      [ "gs";
        "-sFONTPATH=/tmp";
        "-sDEVICE=pdfwrite";
        "-dCompatibilityLevel=1.4";
        "-dPDFSETTINGS=/" +:+ _get_gs_preset dpi quality;
        "-dNOPAUSE";
        "-dQUIET";
        "-dBATCH";
        "-sOutputFile=" +:+ output_path;
        input_path ] in
    subprocess_run cmd output_path
      (λ detail, raise (RuntimeError ("Ghostscript compression failed: " +:+ detail))).

(** [compress_pdf(self, input_path, output_path, quality)] *)
Definition compress_pdf (input_path output_path quality : string) : M unit :=
  match quality_settings !! quality with
  | None =>
      raise (ValueError
        "Invalid quality level. Choose from ['low', 'medium', 'high']")
  | Some settings =>
      temp_dir ← mkdtemp;
      try_finally
        (f ← open_rb input_path;
         pdf ← PdfReader input_path f;
         let writer := foldl add_page [] pdf in
         let temp_pdf := os_path.join temp_dir "temp.pdf" in
         write_pdf temp_pdf writer;;
         _run_ghostscript temp_pdf output_path
           (s_dpi settings) (s_quality settings))
        (rmtree temp_dir)
  end.

(** The loop variables of [split_pdf]. *)
Record split_vars : Type := mkVars {
  parts : list string;
  current_part : Z;
  current_writer : list Page;
  current_size_estimate : Z
}.

(** [f"{output_prefix}_part{current_part}.pdf"] *)
Definition part_path (output_prefix : string) (current_part : Z) : string :=
  output_prefix +:+ "_part" +:+ pretty current_part +:+ ".pdf".

(** The estimate of one page: the length of a one-page document written
    to a named temporary file. *)
Definition estimate_page_size (page : Page) : M N :=
  let temp_writer := add_page [] page in
  temp_file ← NamedTemporaryFile_enter;
  try_finally
    (PdfWriter_write temp_file temp_writer;;
     os_path_getsize temp_file)
    (NamedTemporaryFile_exit temp_file).

(** One iteration of [for page in pdf.pages]. *)
Definition split_step (max_size_bytes : Z) (output_prefix : string)
    (page : Page) (v : split_vars) : M split_vars :=
  temp_size ← estimate_page_size page;
  v1 ← (if (current_size_estimate v + Z.of_N temp_size >? max_size_bytes)
           && (Z.of_nat (length (current_writer v)) >? 0)
        then
          let p := part_path output_prefix (current_part v) in
          write_pdf p (current_writer v);;
          ret (mkVars (parts v ++ [p]) (current_part v + 1) [] 0)
        else ret v);
  ret (mkVars (parts v1) (current_part v1)
         (add_page (current_writer v1) page)
         (current_size_estimate v1 + Z.of_N temp_size)).

(** The iterations of the loop, for pages already in hand. *)
Fixpoint split_loop_given (max_size_bytes : Z) (output_prefix : string)
    (pages : list Page) (v : split_vars) : M split_vars :=
  match pages with
  | [] => ret v
  | page :: rest =>
      v' ← split_step max_size_bytes output_prefix page v;
      split_loop_given max_size_bytes output_prefix rest v'
  end.

(** Whether [p] was opened for writing, which truncates it, among the
    events [evs]. *)
Definition truncated_in (p : string) (evs : list event) : bool :=
  existsb (λ ev, match ev with
                 | EvOpen q WB => bool_decide (q = p)
                 | _ => false
                 end) evs.

(** The system calls made since the log had [mark] entries. *)
Definition events_after (mark : nat) (st : state Page) : list event :=
  take (length (log st) - mark) (log st).

(** The number of system calls made so far. *)
Definition log_mark : M nat :=
  st ← get;
  ret (length (log st)).

(** The next item of [pdf.pages], read through the handle that was opened
    on [input_path] when the log had [opened] entries.  The reader gets a
    page's objects from the handle when the page is used, not when the
    document is opened: once the path has been opened for writing, the
    handle reads a file that is no longer the document, and what the
    reader makes of it is not the program's doing. *)
Definition fetch_page (input_path : string) (opened : nat) (page : Page) : M Page :=
  st ← get;
  if truncated_in input_path (events_after opened st) then
    match stale_read e page with
    | Some other => ret other
    | None => raise (PdfReadError input_path)
    end
  else ret page.

(** [for page in pdf.pages: ...], where [pages] are the pages of the
    document as it was opened. *)
Fixpoint split_loop (max_size_bytes : Z) (output_prefix : string)
    (input_path : string) (opened : nat)
    (pages : list Page) (v : split_vars) : M split_vars :=
  match pages with
  | [] => ret v
  | page :: rest =>
      page' ← fetch_page input_path opened page;
      v' ← split_step max_size_bytes output_prefix page' v;
      split_loop max_size_bytes output_prefix input_path opened rest v'
  end.

(** The prefix used when [output_prefix is None]. *)
Definition default_prefix (input_path : string) : string :=
  let base_name := fst (os_path.splitext (os_path.basename input_path)) in
  os_path.join (os_path.dirname input_path) base_name.

(** [split_pdf(self, input_path, max_size_mb, output_prefix)] *)
Definition split_pdf (input_path : string) (max_size_mb : Z)
    (output_prefix : option string) : M (list string) :=
  let max_size_bytes := max_size_mb * 1024 * 1024 in
  let output_prefix := default (default_prefix input_path) output_prefix in
  f ← open_rb input_path;
  input_size ← os_path_getsize input_path;
  if Z.of_N input_size <=? max_size_bytes then
    print "Input PDF is smaller than specified size. No splitting needed.";;
    ret [input_path]
  else
    pdf ← PdfReader input_path f;
    opened ← log_mark;
    v ← split_loop max_size_bytes output_prefix input_path opened pdf
          (mkVars [] 1 [] 0);
    if Z.of_nat (length (current_writer v)) >? 0 then
      let p := part_path output_prefix (current_part v) in
      write_pdf p (current_writer v);;
      ret (parts v ++ [p])
    else ret (parts v).

End Program.

Arguments split_vars : clear implicits.

(** ** The command line *)

(** The namespace [parser.parse_args()] returns. *)
Record args : Type := mkArgs {
  a_input : string;
  a_output : option string;
  a_quality : string;
  a_split : option Z;
  a_prefix : option string;
  a_verbose : bool
}.

(** Truth value of an [int] or [None], and of a [str] or [None]. *)
Definition truthy_int (x : option Z) : bool :=
  match x with
  | Some n => negb (n =? 0)
  | None => false
  end.
Definition truthy_str (x : option string) : bool :=
  match x with
  | Some s => negb (bool_decide (s = ""))
  | None => false
  end.

Section Main.

Context {Page : Type} (e : env Page).

#[local] Abbreviation M := (M Page).

(** [sys.exit(code)] *)
Definition sys_exit {A} (code : Z) : M A := raise (SystemExit code).

(** The body of [main] after [parse_args]. *)
Definition main (a : args) : M unit :=
  found ← os_path_exists (a_input a);
  if negb found then
    print_err ("Error: Input file '" +:+ a_input a +:+ "' not found.");;
    sys_exit 1
  else
    try_except
      (if truthy_int (a_split a) then
         let split := default 0 (a_split a) in
         when (a_verbose a)
           (print ("Splitting PDF into parts of " +:+ pretty split
                   +:+ "MB each..."));;
         parts ← split_pdf e (a_input a) split (a_prefix a);
         when (a_verbose a)
           (print ("Created " +:+ pretty (length parts) +:+ " parts:");;
            for_each parts (λ part,
              size ← os_path_getsize e part;
              print (" - " +:+ part +:+ " (" +:+ fmt_mb1 e size +:+ " MB)")))
       else
         if negb (truthy_str (a_output a)) then
           print_err "Error: Output path required for compression.";;
           sys_exit 1
         else
           let output := default "" (a_output a) in
           original_size ←
             (if a_verbose a then
                print ("Compressing PDF with " +:+ a_quality a
                       +:+ " quality...");;
                size ← os_path_getsize e (a_input a);
                print ("Original size: " +:+ fmt_mb2 e size +:+ " MB");;
                ret size
              else ret 0%N);
           compress_pdf e (a_input a) output (a_quality a);;
           when (a_verbose a)
             (new_size ← os_path_getsize e output;
              print ("Compressed size: " +:+ fmt_mb2 e new_size +:+ " MB");;
              if (original_size =? 0)%N then raise ZeroDivisionError
              else print ("Reduction: "
                          +:+ fmt_reduction e original_size new_size +:+ "%")))
      (λ ex,
         if is_Exception ex then
           Some (print_err ("Error: " +:+ exn_str e ex);; sys_exit 1)
         else None).

(** Exit status of the process running [main]. *)
Definition exit_status (r : result unit) : Z :=
  match r with
  | Ok _ => 0
  | Raise (SystemExit code) => code
  | Raise _ => 1
  end.

End Main.

(** ** A concrete world, for running the model

    Pages are numbered; every page serializes to 5 MiB, so that a ten-page
    document of 50 MiB split at 20 MiB gives pages 1-4, 5-8 and 9-10. *)

Definition demo_env_reading (gs_found : bool) (failure : option string)
    (stale : option nat) : env nat :=
  mkEnv (λ pages, N.of_nat (length pages) * 5242880)%N
        (λ n, "/tmp/tmp" +:+ pretty n)
        (λ _, WriteOk) 4096%N gs_found
        (Some (mkFile (Some (seq 1 10)) 1000)) failure
        (λ _, "0.0") (λ _, "0.00") (λ _ _, "0.0")
        (λ _, "error") (λ _, stale).

(** The reader of this world raises on a file written over under it. *)
Definition demo_env (gs_found : bool) (failure : option string) : env nat :=
  demo_env_reading gs_found failure None.

Definition demo_state : state nat :=
  mkState {[ "/d/in.pdf" := mkFile (Some (seq 1 10)) 52428800 ]} ∅ 0 [] [] [].

(** The same document under a name that is also the name of the first
    part for the prefix [/d/in]. *)
Definition demo_state_collision : state nat :=
  mkState {[ "/d/in_part1.pdf" := mkFile (Some (seq 1 10)) 52428800 ]}
    ∅ 0 [] [] [].

(** Estimated size of a page, as [split_pdf] measures it. *)
Definition estimate {Page} (e : env Page) (page : Page) : Z :=
  Z.of_N (written_size e [page]).

(** Accumulated estimate of a part. *)
Definition part_estimate {Page} (e : env Page) (part : list Page) : Z :=
  foldr (λ page acc, estimate e page + acc) 0 part.

(** The events a call added to the log, oldest last. *)
Definition events_since {Page} (st st' : state Page) (new : list event) : Prop :=
  log st' = new ++ log st.

(** ** Vocabulary of the properties *)

(** The names of [n] consecutive parts, from number [first] on. *)
Definition part_paths (output_prefix : string) (first : Z) (n : nat) : list string :=
  (λ i, part_path output_prefix (first + Z.of_nat i)) <$> seq 0 n.
Arguments part_paths : simpl never.

(** The file system after documents are written, in order, at given paths. *)
Fixpoint write_parts {Page} (e : env Page) (named : list (string * list Page))
    (fs : gmap string (File Page)) : gmap string (File Page) :=
  match named with
  | [] => fs
  | np :: rest => write_parts e rest (<[np.1 := pdf_file e np.2]> fs)
  end.

(** A part respects the budget, unless it is one page that alone exceeds
    it; and a page that alone exceeds the budget has a part of its own. *)
Definition part_ok {Page} (e : env Page) (max_size_bytes : Z) (part : list Page) : Prop :=
  (part_estimate e part ≤ max_size_bytes
   ∨ ∃ page, part = [page] ∧ max_size_bytes < estimate e page)
  ∧ (∀ page, page ∈ part → max_size_bytes < estimate e page → part = [page]).

(** Whether an iteration seals the current part before taking the page. *)
Definition seals {Page} (e : env Page) (max_size_bytes : Z) (page : Page) (v : split_vars Page) : bool :=
  (current_size_estimate v + estimate e page >? max_size_bytes)
  && (Z.of_nat (length (current_writer v)) >? 0).

(** What holds of the loop variables of [split_pdf] between iterations. *)
Definition split_inv {Page} (e : env Page) (max_size_bytes : Z) (v : split_vars Page) : Prop :=
  current_size_estimate v = part_estimate e (current_writer v)
  ∧ (current_writer v ≠ [] → part_ok e max_size_bytes (current_writer v)).

(** [m] takes every state to one related to it by [R], whether it returns
    or raises. *)
Definition preserves {Page A} (R : relation (state Page)) (m : M Page A) : Prop :=
  ∀ st, R st (m st).2.

(** The call added events that all satisfy [Q] to the log. *)
Definition log_only {Page} (Q : event → Prop) : relation (state Page) :=
  λ st st', ∃ new, events_since st st' new ∧ Forall Q new.

(** The call left the file at [input_path], or its absence, as it was. *)
Definition same_at {Page} (input_path : string) : relation (state Page) :=
  λ st st', files st' !! input_path = files st !! input_path.

(** An event that is not an open of [input_path] in a writing mode. *)
Definition read_only (input_path : string) (ev : event) : Prop :=
  ∀ m, ev = EvOpen input_path m → m = RB.

(** The call left [input_path] as it was and opened it only for reading,
    if the file was there in the first place. *)
Definition untouched {Page} (input_path : string) : relation (state Page) :=
  λ st st', is_Some (files st !! input_path) →
            same_at input_path st st' ∧ log_only (read_only input_path) st st'.

(** An event that is not an open of [input_path] for writing, which
    would truncate the file under a reader that has it open. *)
Definition not_truncating (input_path : string) (ev : event) : Prop :=
  ev ≠ EvOpen input_path WB.

(** Every exception [m] can raise satisfies [P]. *)
Definition raises_only {Page A} (P : exn → Prop) (m : M Page A) : Prop :=
  ∀ st ex st', m st = (Raise ex, st') → P ex.

(** The call wrote nothing to the error stream. *)
Definition same_stderr {Page} : relation (state Page) :=
  λ st st', stderr st' = stderr st.

(** The call left the directories as they were, and the files too, except
    at the paths in [S]. *)
Definition frame_except {Page} (S : string → Prop) : relation (state Page) :=
  λ st st', dirs st' = dirs st
            ∧ ∀ p, ¬ S p → files st' !! p = files st !! p.

(** [p] is the name of a part for the prefix. *)
Definition is_part_path (output_prefix p : string) : Prop :=
  ∃ n : Z, p = part_path output_prefix n.

(** Each part but the last was closed because the page that follows it
    would have taken it over the budget. *)
Definition greedy {Page} (e : env Page) (max_size_bytes : Z)
    (docs : list (list Page)) : Prop :=
  ∀ (i : nat) (doc : list Page) (page : Page) (rest : list Page),
    docs !! i = Some doc → docs !! S i = Some (page :: rest) →
    max_size_bytes < part_estimate e doc + estimate e page.

(** The argument vector [_run_ghostscript] builds. *)
Definition gs_command (preset output_path input_path : string) : list string :=
  [ "gs"; "-sFONTPATH=/tmp"; "-sDEVICE=pdfwrite"; "-dCompatibilityLevel=1.4";
    "-dPDFSETTINGS=/" +:+ preset; "-dNOPAUSE"; "-dQUIET"; "-dBATCH";
    "-sOutputFile=" +:+ output_path; input_path ].

(** The preset [compress_pdf] ends up with for a quality name. *)
Definition preset_of_quality (quality : string) : option string :=
  if bool_decide (quality = "low") then Some "screen"
  else if bool_decide (quality = "medium") then Some "ebook"
  else if bool_decide (quality = "high") then Some "printer"
  else None.

(** No character of [s] is a path separator. *)
Definition no_sep (s : string) : bool :=
  os_path.all_chars (λ c, negb (os_path.is_sep c)) s.

(** A three-page document whose file, 20 MiB long, is longer than the
    15 MiB its pages are estimated at. *)
Definition demo_state_overhead : state nat :=
  mkState {[ "/d/in.pdf" := mkFile (Some (seq 1 3)) 20971520 ]} ∅ 0 [] [] [].

(** * Properties *)

(** ** Paths *)

Example basename_ex : os_path.basename "/data/in/report.v2.pdf" = "report.v2.pdf".
Proof. reflexivity. Qed.
Example dirname_ex : os_path.dirname "/data/in/report.v2.pdf" = "/data/in".
Proof. reflexivity. Qed.
Example dirname_root_ex : os_path.dirname "/report.pdf" = "/".
Proof. reflexivity. Qed.
Example dirname_rel_ex : os_path.dirname "report.pdf" = "".
Proof. reflexivity. Qed.
Example splitext_ex : os_path.splitext "report.v2.pdf" = ("report.v2", ".pdf").
Proof. reflexivity. Qed.
Example splitext_hidden_ex : os_path.splitext ".bashrc" = (".bashrc", "").
Proof. reflexivity. Qed.
Example join_ex : os_path.join "/tmp/tmpab12" "temp.pdf" = "/tmp/tmpab12/temp.pdf".
Proof. reflexivity. Qed.
Example join_empty_ex : os_path.join "" "report" = "report".
Proof. reflexivity. Qed.

(** ** Presets *)

(** C4: the preset is a step function of the DPI with thresholds 72, 150
    and 300, whatever the quality percentage; 73, 151 and 301 map to
    "ebook", "printer" and "prepress". *)
Theorem preset_step_function (dpi quality : Z) :
  (dpi ≤ 72 → _get_gs_preset dpi quality = "screen")
  ∧ (72 < dpi ≤ 150 → _get_gs_preset dpi quality = "ebook")
  ∧ (150 < dpi ≤ 300 → _get_gs_preset dpi quality = "printer")
  ∧ (300 < dpi → _get_gs_preset dpi quality = "prepress")
  ∧ _get_gs_preset 73 quality = "ebook"
  ∧ _get_gs_preset 151 quality = "printer"
  ∧ _get_gs_preset 301 quality = "prepress".
Proof.
  unfold _get_gs_preset.
  repeat split; try reflexivity; intros H;
    repeat (case_match; try lia); reflexivity.
Qed.

(** C9: the quality percentage never influences the preset. *)
Theorem preset_ignores_quality (dpi q1 q2 : Z) :
  _get_gs_preset dpi q1 = _get_gs_preset dpi q2.
Proof. reflexivity. Qed.

(** ** Strings and part names *)

Lemma string_app_length (s t : string) :
  String.length (s +:+ t) = (String.length s + String.length t)%nat.
Proof. induction s as [|c s IH]; simpl; [reflexivity | by rewrite IH]. Qed.

Lemma string_app_inj_r (t s1 s2 : string) : s1 +:+ t = s2 +:+ t → s1 = s2.
Proof.
  revert s2. induction s1 as [|c1 s1 IH]; intros [|c2 s2] H; simpl in H.
  - reflexivity.
  - apply (f_equal String.length) in H.
    simpl in H. rewrite ?string_app_length in H. simpl in H. lia.
  - apply (f_equal String.length) in H.
    simpl in H. rewrite ?string_app_length in H. simpl in H. lia.
  - injection H as -> H. f_equal. by apply IH.
Qed.

Lemma part_path_inj (output_prefix : string) (a b : Z) :
  part_path output_prefix a = part_path output_prefix b → a = b.
Proof.
  unfold part_path. intros H.
  apply String.app_inj in H. apply String.app_inj in H.
  apply string_app_inj_r in H. by apply (inj pretty).
Qed.

Lemma prefix_app_char (a : string) (c : ascii) (b : string) :
  String.prefix (a +:+ String c "") (a +:+ String c b) = true.
Proof.
  induction a as [|x a IH]; simpl.
  - destruct (Ascii.ascii_dec c c); [by destruct b | done].
  - destruct (Ascii.ascii_dec x x); [exact IH | done].
Qed.

Lemma prefix_app (a b : string) : String.prefix a (a +:+ b) = true.
Proof.
  induction a as [|x a IH]; simpl.
  - by destruct b.
  - destruct (Ascii.ascii_dec x x); [exact IH | done].
Qed.

Lemma string_app_empty_r (s : string) : s +:+ "" = s.
Proof.
  induction s as [|c s IH]; [done|].
  change (String c (s +:+ "") = String c s). by rewrite IH.
Qed.

(** The scratch file lies in the scratch directory, and is not it. *)
Lemma temp_pdf_under (d : string) : under d (os_path.join d "temp.pdf") = true.
Proof.
  unfold under, dir_prefix, os_path.join. simpl.
  destruct (bool_decide (d = "") || os_path.ends_with_sep d).
  - rewrite string_app_empty_r. apply prefix_app.
  - apply prefix_app_char.
Qed.

Lemma temp_pdf_ne (d : string) : os_path.join d "temp.pdf" ≠ d.
Proof.
  unfold os_path.join. simpl. intros H.
  apply (f_equal String.length) in H.
  destruct (bool_decide (d = "") || os_path.ends_with_sep d);
    rewrite string_app_length in H; simpl in H; lia.
Qed.

(** ** Running monadic code symbolically *)

Ltac unfold_monad :=
  unfold mbind, M_bind, mret, M_ret, bind, ret, raise, try_finally, try_except,
    emit, print, print_err, modify, get, when, sys_exit in *.

Ltac unfold_calls :=
  unfold os_path_exists, os_path_getsize, open_rb, PdfReader, write_pdf,
    PdfWriter_write, mkdtemp, rmtree, NamedTemporaryFile_enter,
    NamedTemporaryFile_exit, next_tmp_name, shutil_which, subprocess_run in *.

Section Proofs.

Context {Page : Type}.
Implicit Types (e : env Page) (st : state Page) (f : File Page).

(** ** Quality names *)

Lemma quality_settings_None (quality : string) :
  quality ∉ ["low"; "medium"; "high"] → quality_settings !! quality = None.
Proof.
  intros H. unfold quality_settings.
  rewrite !lookup_insert_ne, lookup_empty; [done|..];
    intros <-; apply H; set_solver.
Qed.

Lemma quality_settings_Some (quality : string) :
  quality ∈ ["low"; "medium"; "high"] →
  ∃ s, quality_settings !! quality = Some s.
Proof.
  intros H. unfold quality_settings.
  repeat (apply elem_of_cons in H as [->|H]); [by eexists..|].
  by apply elem_of_nil in H.
Qed.

(** C6: an unknown quality name makes [compress_pdf] raise the
    [ValueError] for an invalid quality level (the spec's
    InvalidQualityError) with the world untouched: no file, directory or
    temporary name is created, and the log of system calls gets no entry,
    so the input is never opened. *)
Theorem compress_rejects_unknown_quality e (input_path output_path quality : string) st :
  quality ∉ ["low"; "medium"; "high"] →
  compress_pdf e input_path output_path quality st
  = (Raise (ValueError "Invalid quality level. Choose from ['low', 'medium', 'high']"),
     st).
Proof.
  intros H. unfold compress_pdf.
  by rewrite (quality_settings_None _ H).
Qed.

(** ** The short-circuit of [split_pdf] *)

(** C5: when the input file is no longer than the threshold, [split_pdf]
    returns the input path alone; the files and directories are as before
    (nothing is created or copied, no temporary name is used), and the
    only system calls are the read-only open and the size query of the
    input. *)
Theorem split_short_circuit e (input_path : string) (max_size_mb : Z)
    (output_prefix : option string) st f :
  files st !! input_path = Some f →
  Z.of_N (f_size f) ≤ max_size_mb * 1024 * 1024 →
  ∃ st',
    split_pdf e input_path max_size_mb output_prefix st = (Ok [input_path], st')
    ∧ files st' = files st
    ∧ dirs st' = dirs st
    ∧ tmp_seq st' = tmp_seq st
    ∧ events_since st st' [EvStat input_path; EvOpen input_path RB].
Proof.
  intros Hf Hsize. unfold split_pdf. unfold_calls. unfold_monad. simpl.
  rewrite Hf. simpl. rewrite Hf. simpl.
  destruct (Z.leb_spec (Z.of_N (f_size f)) (max_size_mb * 1024 * 1024)); [|lia].
  eexists. split; [reflexivity|]. done.
Qed.

(** ** Inversion of the monad's combinators *)

Lemma bind_inv {A B} (m : M Page A) (k : A → M Page B) st (r : result B) st' :
  (m ≫= k) st = (r, st') →
  (∃ a st1, m st = (Ok a, st1) ∧ k a st1 = (r, st'))
  ∨ (∃ ex, m st = (Raise ex, st') ∧ r = Raise ex).
Proof.
  unfold mbind, M_bind, bind. destruct (m st) as [[a|ex] st1]; intros H.
  - left. by exists a, st1.
  - right. injection H as <- <-. by exists ex.
Qed.

Lemma bind_Ok_inv {A B} (m : M Page A) (k : A → M Page B) st (b : B) st' :
  (m ≫= k) st = (Ok b, st') →
  ∃ a st1, m st = (Ok a, st1) ∧ k a st1 = (Ok b, st').
Proof. intros [H|(ex & _ & ?)]%bind_inv; done. Qed.

Lemma try_finally_inv {A} (body : M Page A) (fin : M Page unit) st (r : result A) st' :
  try_finally body fin st = (r, st') →
  ∃ r1 st1, body st = (r1, st1)
    ∧ ((fin st1 = (Ok tt, st') ∧ r = r1)
       ∨ (∃ ex, fin st1 = (Raise ex, st') ∧ r = Raise ex)).
Proof.
  unfold try_finally. destruct (body st) as [r1 st1].
  destruct (fin st1) as [[[]|ex] st2] eqn:Hfin; intros [= <- <-];
    exists r1, st1; (split; [done|]); [left | right]; eauto.
Qed.

(** ** Relations between the states before and after a call *)

Section Preserves.

Context (R : relation (state Page)) `{!PreOrder R}.

Lemma preserves_ret {A} (a : A) : preserves R (ret a).
Proof. intros st. simpl. reflexivity. Qed.

Lemma preserves_raise {A} (ex : exn) : preserves R (raise (A := A) ex).
Proof. intros st. simpl. reflexivity. Qed.

Lemma preserves_get : preserves R get.
Proof. intros st. simpl. reflexivity. Qed.

Lemma preserves_bind {A B} (m : M Page A) (k : A → M Page B) :
  preserves R m → (∀ a, preserves R (k a)) → preserves R (m ≫= k).
Proof.
  intros Hm Hk st. unfold_monad.
  specialize (Hm st). destruct (m st) as [[a|ex] st1]; simpl in *; [|done].
  etrans; [exact Hm | apply Hk].
Qed.

Lemma preserves_try_finally {A} (body : M Page A) (fin : M Page unit) :
  preserves R body → preserves R fin → preserves R (try_finally body fin).
Proof.
  intros Hb Hf st. unfold try_finally.
  specialize (Hb st). destruct (body st) as [r st1]; simpl in *.
  specialize (Hf st1). destruct (fin st1) as [[[]|ex] st2]; simpl in *;
    by etrans.
Qed.

Lemma preserves_try_except {A} (body : M Page A) (h : exn → option (M Page A)) :
  preserves R body → (∀ ex k, h ex = Some k → preserves R k) →
  preserves R (try_except body h).
Proof.
  intros Hb Hh st. unfold try_except.
  specialize (Hb st). destruct (body st) as [[a|ex] st1]; simpl in *; [done|].
  destruct (h ex) as [k|] eqn:Hk; [|done].
  etrans; [exact Hb | by apply (Hh ex)].
Qed.

Lemma preserves_when (b : bool) (m : M Page unit) :
  preserves R m → preserves R (when b m).
Proof. destruct b; [done | intros _; apply preserves_ret]. Qed.

Lemma preserves_for_each {A} (xs : list A) (body : A → M Page unit) :
  (∀ x, preserves R (body x)) → preserves R (for_each xs body).
Proof.
  intros Hb. induction xs as [|x xs IH]; simpl.
  - apply preserves_ret.
  - apply preserves_bind; [apply Hb | intros _; exact IH].
Qed.

End Preserves.

#[local] Instance log_only_preorder (Q : event → Prop) :
  PreOrder (log_only (Page := Page) Q).
Proof.
  split.
  - intros st. by exists [].
  - intros st1 st2 st3 (n1 & H1 & Q1) (n2 & H2 & Q2).
    exists (n2 ++ n1). unfold events_since in *. split.
    + by rewrite H2, H1, (assoc_L (++)).
    + by apply Forall_app.
Qed.

Lemma log_only_emit (Q : event → Prop) (ev : event) :
  Q ev → preserves (log_only Q) (emit (Page := Page) ev).
Proof. intros H st. exists [ev]. split; [done | by constructor]. Qed.

Lemma log_only_modify (Q : event → Prop) (g : state Page → state Page) :
  (∀ st, log (g st) = log st) → preserves (log_only Q) (modify g).
Proof. intros H st. exists []. split; [apply H | done]. Qed.

Ltac preserves_structure :=
  repeat first
    [ apply preserves_ret; apply _
    | apply preserves_raise; apply _
    | apply preserves_get; apply _
    | apply preserves_bind; [apply _ | | intros ?]
    | apply preserves_try_finally; [apply _ | |]
    | apply preserves_when; [apply _ |]
    | progress cbv zeta
    | match goal with
      | |- preserves _ (match ?x with _ => _ end) => destruct x
      end ].

Ltac log_only_calls :=
  unfold_calls;
  repeat first
    [ progress preserves_structure
    | apply log_only_emit
    | apply log_only_modify; intros ?; reflexivity ].

Section LogOnly.

Context (Q : event → Prop) (e : env Page).

Lemma log_only_getsize (p : string) :
  Q (EvStat p) → preserves (log_only Q) (os_path_getsize e p).
Proof. intros. log_only_calls; done. Qed.

Lemma log_only_open_rb (p : string) :
  Q (EvOpen p RB) → preserves (log_only Q) (open_rb (Page := Page) p).
Proof. intros. log_only_calls; done. Qed.

Lemma log_only_write_pdf (p : string) (writer : list Page) :
  Q (EvOpen p WB) → preserves (log_only Q) (write_pdf e p writer).
Proof. intros. log_only_calls; done. Qed.

Lemma log_only_rmtree (d : string) :
  Q (EvRmtree d) → preserves (log_only Q) (rmtree (Page := Page) d).
Proof. intros. log_only_calls; done. Qed.

Lemma log_only_run_ghostscript (input_path output_path : string) (dpi quality : Z) :
  Q (EvWhich "gs") → (gs_on_path e = true → ∀ cmd, Q (EvSpawn cmd)) →
  preserves (log_only Q) (_run_ghostscript e input_path output_path dpi quality).
Proof.
  intros Hw Hs st. unfold _run_ghostscript. unfold_calls. unfold_monad. simpl.
  destruct (gs_on_path e); simpl.
  - destruct (gs_output e), (gs_failure e); simpl;
      (eexists [_; _]; split; [reflexivity | repeat constructor; auto]).
  - exists [EvWhich "gs"]. split; [reflexivity | repeat constructor; auto].
Qed.

Lemma log_only_mkdtemp :
  (∀ d, Q (EvMkdtemp d)) → preserves (log_only Q) (mkdtemp e).
Proof. intros. log_only_calls; done. Qed.

(** The body of the [try] block of [compress_pdf]. *)
Lemma log_only_compress_body (input_path output_path temp_dir : string) (s : settings) :
  Q (EvOpen input_path RB) →
  Q (EvOpen (os_path.join temp_dir "temp.pdf") WB) →
  Q (EvWhich "gs") →
  (gs_on_path e = true → ∀ cmd, Q (EvSpawn cmd)) →
  preserves (log_only Q)
    (f ← open_rb input_path;
     pdf ← PdfReader input_path f;
     let writer := foldl add_page [] pdf in
     let temp_pdf := os_path.join temp_dir "temp.pdf" in
     write_pdf e temp_pdf writer;;
     _run_ghostscript e temp_pdf output_path (s_dpi s) (s_quality s)).
Proof.
  intros Ho Hw Hg Hs.
  apply preserves_bind; [apply _ | by apply log_only_open_rb |]. intros f.
  apply preserves_bind; [apply _ | log_only_calls |]. intros pdf. cbv zeta.
  apply preserves_bind; [apply _ | by apply log_only_write_pdf |]. intros _.
  by apply log_only_run_ghostscript.
Qed.

Lemma log_only_compress_pdf (input_path output_path quality : string) :
  (∀ d, Q (EvMkdtemp d)) → (∀ d, Q (EvRmtree d)) →
  Q (EvOpen input_path RB) → (∀ p, Q (EvOpen p WB)) → Q (EvWhich "gs") →
  (gs_on_path e = true → ∀ cmd, Q (EvSpawn cmd)) →
  preserves (log_only Q) (compress_pdf e input_path output_path quality).
Proof.
  intros Hm Hr Ho Hw Hg Hs. unfold compress_pdf.
  destruct (quality_settings !! quality) as [s|]; [|apply preserves_raise, _].
  apply preserves_bind; [apply _ | by apply log_only_mkdtemp |]. intros d.
  apply preserves_try_finally; [apply _ | | by apply log_only_rmtree].
  by apply log_only_compress_body.
Qed.

End LogOnly.

(** ** The scratch directory of [compress_pdf] *)

Lemma mkdtemp_Ok e st (d : string) st1 :
  mkdtemp e st = (Ok d, st1) →
  path_exists st d = false
  ∧ map_Forall (λ p _, under d p = false) (files st)
  ∧ set_Forall (λ p, under d p = false) (dirs st)
  ∧ st1 = set_dirs (λ ds, {[d]} ∪ ds) (add_log (EvMkdtemp d) (bump_tmp st)).
Proof.
  unfold mkdtemp. unfold_calls. unfold_monad. simpl.
  destruct (path_exists _ _) eqn:He; simpl; [done|].
  case_bool_decide as Hf; simpl; [|done].
  case_bool_decide as Hd; simpl; [|done].
  intros [= <- <-]. done.
Qed.

Lemma mkdtemp_Raise e st (ex : exn) st1 :
  mkdtemp e st = (Raise ex, st1) → st1 = bump_tmp st.
Proof.
  unfold mkdtemp. unfold_calls. unfold_monad. simpl.
  destruct (_ || _); simpl; [|done]. by intros [= _ <-].
Qed.

Lemma in_tree_self (d : string) : in_tree d d = true.
Proof. unfold in_tree. by rewrite bool_decide_eq_true_2. Qed.

Lemma in_tree_under (d p : string) : under d p = true → in_tree d p = true.
Proof. unfold in_tree. intros ->. apply orb_true_r. Qed.

(** C3: with a valid quality name, every directory [compress_pdf] creates
    with [mkdtemp] is gone when the call ends, together with every file
    and directory below it, whether the call returns or raises, and
    whatever the input file, the writes and the engine do. *)
Theorem compress_removes_scratch e (input_path output_path quality : string)
    st (r : result unit) st' :
  quality ∈ ["low"; "medium"; "high"] →
  compress_pdf e input_path output_path quality st = (r, st') →
  ∃ new, events_since st st' new
    ∧ ∀ d, EvMkdtemp d ∈ new →
        (d ∉ dirs st')
        ∧ ∀ p, under d p = true → files st' !! p = None ∧ (p ∉ dirs st').
Proof.
  intros Hq Hrun. apply quality_settings_Some in Hq as [s Hs].
  unfold compress_pdf in Hrun. rewrite Hs in Hrun.
  apply bind_inv in Hrun as [(d & st1 & Hmk & Hrun)|(ex & Hmk & ->)].
  - apply mkdtemp_Ok in Hmk as (_ & _ & _ & Hst1).
    apply try_finally_inv in Hrun as (r2 & st2 & Hbody & Hfin).
    pose proof (log_only_compress_body (λ ev, ∀ d', ev ≠ EvMkdtemp d') e
                  input_path output_path d s
                  ltac:(done) ltac:(done) ltac:(done) ltac:(done) st1) as Hlog.
    cbv zeta in Hbody, Hlog. rewrite Hbody in Hlog. simpl in Hlog.
    destruct Hlog as (new2 & Hnew2 & HQ).
    assert (st' = set_dirs (filter (λ p, in_tree d p = false))
                    (set_files (filter (λ kv, in_tree d kv.1 = false))
                       (add_log (EvRmtree d) st2))) as ->.
    { destruct Hfin as [[Hfin _]|(? & Hfin & _)]; by injection Hfin. }
    simpl.
    exists (EvRmtree d :: new2 ++ [EvMkdtemp d]). unfold events_since in *.
    simpl. split.
    { rewrite Hnew2, Hst1. simpl. by rewrite <- (assoc_L (++)). }
    intros d0 Hd0.
    assert (d0 = d) as ->.
    { apply elem_of_cons in Hd0 as [?|Hd0]; [done|].
      apply elem_of_app in Hd0 as [Hd0|Hd0].
      - rewrite Forall_forall in HQ. by destruct (HQ _ Hd0 d0).
      - apply list_elem_of_singleton in Hd0. by injection Hd0. }
    split.
    + rewrite elem_of_filter, in_tree_self. by intros [? _].
    + intros p Hp%in_tree_under. split.
      * apply map_lookup_filter_None. right. intros f _. simpl. by rewrite Hp.
      * rewrite elem_of_filter, Hp. by intros [? _].
  - apply mkdtemp_Raise in Hmk as ->.
    exists []. split; [done|]. intros d Hd. by apply elem_of_nil in Hd.
Qed.

(** ** Running a call whose outcome is known *)

Lemma bind_run_Ok {A B} (m : M Page A) (k : A → M Page B) st (a : A) st1 :
  m st = (Ok a, st1) → (m ≫= k) st = k a st1.
Proof. unfold mbind, M_bind, bind. by intros ->. Qed.

Lemma bind_run_Raise {A B} (m : M Page A) (k : A → M Page B) st (ex : exn) st1 :
  m st = (Raise ex, st1) → (m ≫= k) st = (Raise ex, st1).
Proof. unfold mbind, M_bind, bind. by intros ->. Qed.

Lemma open_rb_Some (p : string) st f :
  files st !! p = Some f → open_rb p st = (Ok f, add_log (EvOpen p RB) st).
Proof. intros H. unfold open_rb. unfold_monad. simpl. by rewrite H. Qed.

Lemma open_rb_None (p : string) st :
  files st !! p = None →
  ∃ ex, open_rb p st = (Raise ex, add_log (EvOpen p RB) st).
Proof.
  intros H. unfold open_rb. unfold_monad. simpl. rewrite H.
  destruct (bool_decide _); by eexists.
Qed.

Lemma write_pdf_Ok e (p : string) (writer : list Page) st :
  p ∉ dirs st → write_outcome_at e p = WriteOk →
  write_pdf e p writer st
  = (Ok tt, set_files <[p := pdf_file e writer]>
              (set_files <[p := empty_file]> (add_log (EvOpen p WB) st))).
Proof.
  intros Hd Hw. unfold write_pdf, PdfWriter_write. unfold_monad. simpl.
  rewrite bool_decide_eq_false_2 by done. by rewrite Hw.
Qed.

Lemma run_ghostscript_missing e (input_path output_path : string) (dpi quality : Z) st :
  gs_on_path e = false →
  _run_ghostscript e input_path output_path dpi quality st
  = (Raise (RuntimeError "Ghostscript (gs) not found. Please install it first."),
     add_log (EvWhich "gs") st).
Proof.
  intros H. unfold _run_ghostscript, shutil_which. unfold_monad. simpl.
  by rewrite H.
Qed.

(** ** A missing engine *)

(** C8, as the code has it: when [gs] is not on the search path, no call
    of [compress_pdf] ever spawns the engine; and a call that reaches the
    engine step (valid quality name, scratch directory created, input read
    as a PDF, intermediate file written) raises the [RuntimeError] saying
    that Ghostscript was not found (the spec's MissingDependencyError). *)
Theorem compress_missing_engine e (input_path output_path quality : string)
    st (r : result unit) st' :
  gs_on_path e = false →
  compress_pdf e input_path output_path quality st = (r, st') →
  (∃ new, events_since st st' new ∧ ∀ cmd, EvSpawn cmd ∉ new)
  ∧ (∀ (d : string) st1 f (pages : list Page),
       quality ∈ ["low"; "medium"; "high"] →
       mkdtemp e st = (Ok d, st1) →
       files st !! input_path = Some f →
       f_doc f = Some pages →
       write_outcome_at e (os_path.join d "temp.pdf") = WriteOk →
       r = Raise (RuntimeError "Ghostscript (gs) not found. Please install it first.")).
Proof.
  intros Hgs Hrun. split.
  - pose proof (log_only_compress_pdf (λ ev, ∀ cmd, ev ≠ EvSpawn cmd) e
                  input_path output_path quality
                  ltac:(done) ltac:(done) ltac:(done) ltac:(done) ltac:(done)
                  ltac:(by rewrite Hgs) st) as (new & Hnew & HQ).
    rewrite Hrun in Hnew. exists new. split; [done|].
    intros cmd Hin. rewrite Forall_forall in HQ. by destruct (HQ _ Hin cmd).
  - intros d st1 f pages [s Hs]%quality_settings_Some Hmk Hf Hdoc Hw.
    unfold compress_pdf in Hrun. rewrite Hs in Hrun.
    rewrite (bind_run_Ok _ _ _ _ _ Hmk) in Hrun.
    apply mkdtemp_Ok in Hmk as (Hex & _ & Hdirs & ->).
    apply try_finally_inv in Hrun as (r1 & st2 & Hbody & Hfin).
    assert (r = r1) as ->.
    { destruct Hfin as [[_ ?]|(ex & Hfin & _)]; [done|].
      unfold rmtree in Hfin. unfold_monad. done. }
    erewrite bind_run_Ok in Hbody; [|by apply open_rb_Some].
    unfold PdfReader in Hbody at 1. rewrite Hdoc in Hbody.
    erewrite bind_run_Ok in Hbody; [|reflexivity]. cbv zeta in Hbody.
    erewrite bind_run_Ok in Hbody; [|apply write_pdf_Ok; [|done]].
    + rewrite run_ghostscript_missing in Hbody by done. by injection Hbody.
    + simpl. rewrite elem_of_union, elem_of_singleton.
      intros [Heq|Hin]; [by apply temp_pdf_ne in Heq|].
      apply Hdirs in Hin. by rewrite temp_pdf_under in Hin.
Qed.

(** ** One iteration of the splitting loop *)

Lemma estimate_page_size_Ok e (page : Page) st (n : N) st' :
  estimate_page_size e page st = (Ok n, st') →
  n = written_size e [page] ∧ files st' = files st ∧ dirs st' = dirs st.
Proof.
  unfold estimate_page_size. unfold_calls. unfold_monad. simpl.
  match goal with
  | |- context [path_exists ?s ?name] => destruct (path_exists s name) eqn:Hex
  end; simpl; [done|].
  apply orb_false_elim in Hex as [Hfile _].
  apply bool_decide_eq_false in Hfile. rewrite <- eq_None_not_Some in Hfile.
  destruct (write_outcome_at e _); simpl; [|done..].
  rewrite lookup_insert_eq. simpl. intros [= <- <-]. simpl.
  split; [done|]. split; [|done].
  by rewrite !delete_insert_eq, delete_id.
Qed.

Lemma write_pdf_Ok_inv e (p : string) (writer : list Page) st (u : unit) st' :
  write_pdf e p writer st = (Ok u, st') →
  files st' = <[p := pdf_file e writer]> (files st) ∧ dirs st' = dirs st.
Proof.
  unfold write_pdf, PdfWriter_write. unfold_monad. simpl.
  case_bool_decide; simpl; [done|].
  destruct (write_outcome_at e p); simpl; [|done..].
  destruct u. intros [= <-]. simpl. by rewrite insert_insert_eq.
Qed.

Lemma split_step_Ok e (max_size_bytes : Z) (output_prefix : string)
    (page : Page) (v : split_vars Page) st (v' : split_vars Page) st' :
  split_step e max_size_bytes output_prefix page v st = (Ok v', st') →
  if seals e max_size_bytes page v then
    v' = mkVars (parts v ++ [part_path output_prefix (current_part v)])
           (current_part v + 1) [page] (estimate e page)
    ∧ files st' = <[part_path output_prefix (current_part v)
                    := pdf_file e (current_writer v)]> (files st)
  else
    v' = mkVars (parts v) (current_part v) (current_writer v ++ [page])
           (current_size_estimate v + estimate e page)
    ∧ files st' = files st.
Proof.
  unfold split_step. intros (n & st1 & Hest & Hrun)%bind_Ok_inv.
  apply estimate_page_size_Ok in Hest as (-> & Hfiles1 & _).
  apply bind_Ok_inv in Hrun as (v1 & st2 & Hseal & Hret).
  injection Hret as <- <-.
  unfold seals, estimate. destruct (_ && _).
  - apply bind_Ok_inv in Hseal as ([] & st3 & Hw & Hret).
    injection Hret as <- <-. apply write_pdf_Ok_inv in Hw as [Hw _].
    rewrite Hw, Hfiles1. done.
  - injection Hseal as <- <-. done.
Qed.

(** ** Estimates *)

Lemma estimate_nonneg e (page : Page) : 0 ≤ estimate e page.
Proof. unfold estimate. lia. Qed.

Lemma part_estimate_nonneg e (part : list Page) : 0 ≤ part_estimate e part.
Proof.
  induction part as [|page part IH]; simpl; [done|].
  pose proof (estimate_nonneg e page). lia.
Qed.

Lemma part_estimate_app e (part : list Page) (page : Page) :
  part_estimate e (part ++ [page]) = part_estimate e part + estimate e page.
Proof. induction part as [|q part IH]; simpl; lia. Qed.

Lemma estimate_le_part e (part : list Page) (page : Page) :
  page ∈ part → estimate e page ≤ part_estimate e part.
Proof.
  induction part as [|q part IH]; [by intros ?%elem_of_nil|].
  intros [->|Hin]%elem_of_cons; simpl.
  - pose proof (part_estimate_nonneg e part). lia.
  - pose proof (estimate_nonneg e q). specialize (IH Hin). lia.
Qed.

Lemma part_ok_single e (max_size_bytes : Z) (page : Page) :
  part_ok e max_size_bytes [page].
Proof.
  split.
  - destruct (Z.le_gt_cases (estimate e page) max_size_bytes).
    + left. simpl. lia.
    + right. exists page. split; [done | lia].
  - intros q ->%list_elem_of_singleton _. done.
Qed.

Lemma part_ok_within e (max_size_bytes : Z) (part : list Page) :
  part_estimate e part ≤ max_size_bytes → part_ok e max_size_bytes part.
Proof.
  intros Hle. split; [by left|].
  intros page Hin%(estimate_le_part e) Hover. lia.
Qed.

(** The loop invariant survives an iteration, and a part that the
    iteration seals is as it should be. *)
Lemma split_inv_fresh e (max_size_bytes : Z) (page : Page) (ps : list string) (c : Z) :
  split_inv e max_size_bytes (mkVars ps c [page] (estimate e page)).
Proof.
  split; simpl; [lia|]. intros _. apply part_ok_single.
Qed.

Lemma split_inv_step e (max_size_bytes : Z) (page : Page) (v : split_vars Page) :
  split_inv e max_size_bytes v →
  if seals e max_size_bytes page v then
    part_ok e max_size_bytes (current_writer v) ∧ current_writer v ≠ []
  else
    split_inv e max_size_bytes
      (mkVars (parts v) (current_part v) (current_writer v ++ [page])
         (current_size_estimate v + estimate e page)).
Proof.
  intros [Hsize Hok]. unfold seals.
  destruct (Z.gtb_spec (Z.of_nat (length (current_writer v))) 0)
    as [Hne|Hempty].
  - assert (current_writer v ≠ []) as Hw by (by destruct (current_writer v)).
    destruct (Z.gtb_spec (current_size_estimate v + estimate e page) max_size_bytes)
      as [Hover|Hfits]; simpl.
    + split; [by apply Hok | done].
    + split; simpl; [rewrite part_estimate_app; lia|].
      intros _. apply part_ok_within. rewrite part_estimate_app. lia.
  - rewrite andb_false_r.
    destruct (current_writer v) as [|q w]; [|simpl in Hempty; lia].
    simpl in *. rewrite Hsize. apply split_inv_fresh.
Qed.

(** ** Part names *)

Lemma part_paths_length (output_prefix : string) (first : Z) (n : nat) :
  length (part_paths output_prefix first n) = n.
Proof. unfold part_paths. by rewrite length_fmap, length_seq. Qed.

Lemma part_paths_S (output_prefix : string) (first : Z) (n : nat) :
  part_paths output_prefix first (S n)
  = part_path output_prefix first :: part_paths output_prefix (first + 1) n.
Proof.
  unfold part_paths. simpl. rewrite Z.add_0_r. f_equal.
  rewrite <- fmap_S_seq, <- list_fmap_compose.
  apply list_fmap_ext. intros _ i _. simpl. f_equal. lia.
Qed.

Lemma part_paths_snoc (output_prefix : string) (first : Z) (n : nat) :
  part_paths output_prefix first (S n)
  = part_paths output_prefix first n
    ++ [part_path output_prefix (first + Z.of_nat n)].
Proof. unfold part_paths. by rewrite seq_S, fmap_app. Qed.

Lemma part_paths_NoDup (output_prefix : string) (first : Z) (n : nat) :
  NoDup (part_paths output_prefix first n).
Proof.
  unfold part_paths. apply NoDup_fmap_2; [|apply NoDup_seq].
  intros i j Heq%part_path_inj. lia.
Qed.


(** ** Files written in a row *)

Lemma write_parts_app e (l1 l2 : list (string * list Page)) (fs : gmap string (File Page)) :
  write_parts e (l1 ++ l2) fs = write_parts e l2 (write_parts e l1 fs).
Proof. revert fs. induction l1 as [|np l1 IH]; intros fs; simpl; [done|apply IH]. Qed.

Lemma write_parts_notin e (p : string) (paths : list string) (docs : list (list Page))
    (fs : gmap string (File Page)) :
  p ∉ paths → write_parts e (zip paths docs) fs !! p = fs !! p.
Proof.
  revert docs fs. induction paths as [|q paths IH]; intros [|doc docs] fs Hp;
    simpl; try done.
  apply not_elem_of_cons in Hp as [Hne Hp].
  rewrite IH by done. by rewrite lookup_insert_ne.
Qed.

Lemma write_parts_lookup e (paths : list string) (docs : list (list Page))
    (fs : gmap string (File Page)) :
  length paths = length docs → NoDup paths →
  Forall2 (λ p doc, write_parts e (zip paths docs) fs !! p = Some (pdf_file e doc))
    paths docs.
Proof.
  revert docs fs. induction paths as [|q paths IH]; intros [|doc docs] fs Hlen Hnd;
    simpl in *; try done.
  apply NoDup_cons in Hnd as [Hq Hnd]. constructor.
  - rewrite write_parts_notin by done. by rewrite lookup_insert_eq.
  - apply IH; [lia | done].
Qed.

(** ** The splitting loop *)

Lemma split_loop_Ok e (max_size_bytes : Z) (output_prefix : string)
    (pages : list Page) (v : split_vars Page) st (v' : split_vars Page) st' :
  split_loop_given e max_size_bytes output_prefix pages v st = (Ok v', st') →
  split_inv e max_size_bytes v →
  ∃ sealed : list (list Page),
    parts v' = parts v ++ part_paths output_prefix (current_part v) (length sealed)
    ∧ current_part v' = current_part v + Z.of_nat (length sealed)
    ∧ files st'
      = write_parts e
          (zip (part_paths output_prefix (current_part v) (length sealed)) sealed)
          (files st)
    ∧ concat sealed ++ current_writer v' = current_writer v ++ pages
    ∧ Forall (part_ok e max_size_bytes) sealed
    ∧ Forall (λ part, part ≠ []) sealed
    ∧ split_inv e max_size_bytes v'.
Proof.
  revert v st. induction pages as [|page rest IH]; intros v st Hrun Hinv.
  - injection Hrun as <- <-. exists []. simpl.
    rewrite !app_nil_r, Z.add_0_r. done.
  - simpl in Hrun. apply bind_Ok_inv in Hrun as (v1 & st1 & Hstep & Hrun).
    apply split_step_Ok in Hstep.
    pose proof (split_inv_step e max_size_bytes page v Hinv) as Hinv1.
    destruct (seals e max_size_bytes page v).
    + destruct Hstep as [-> Hfiles]. destruct Hinv1 as [Hok Hne].
      apply IH in Hrun as (sealed & Hparts & Hcur & Hfs & Hcat & Hoks & Hnes & Hinv');
        [|apply split_inv_fresh].
      simpl in *. exists (current_writer v :: sealed). simpl length.
      rewrite part_paths_S. simpl.
      rewrite Hparts, Hcur, Hfs, Hfiles, <- !(assoc_L (++)), Hcat.
      split_and!; [done | lia | done | done | by constructor.. | done].
    + destruct Hstep as [-> Hfiles].
      apply IH in Hrun as (sealed & Hparts & Hcur & Hfs & Hcat & Hoks & Hnes & Hinv');
        [|done].
      simpl in *. exists sealed.
      rewrite Hparts, Hcur, Hfs, Hfiles, Hcat, <- (assoc_L (++)). done.
Qed.

Lemma getsize_Some e (p : string) st f :
  files st !! p = Some f →
  os_path_getsize e p st = (Ok (f_size f), add_log (EvStat p) st).
Proof. intros H. unfold os_path_getsize. unfold_monad. simpl. by rewrite H. Qed.

(** ** Pages read through the open handle *)

Lemma fetch_page_state e (input_path : string) (opened : nat) (page : Page)
    st (r : result Page) st' :
  fetch_page e input_path opened page st = (r, st') → st' = st.
Proof.
  unfold fetch_page. unfold_monad. simpl.
  destruct (truncated_in _ _); [destruct (stale_read e page)|];
    by intros [= _ <-].
Qed.

Lemma fetch_page_fresh e (input_path : string) (opened : nat) (page : Page) st :
  truncated_in input_path (events_after opened st) = false →
  fetch_page e input_path opened page st = (Ok page, st).
Proof. intros H. unfold fetch_page. unfold_monad. simpl. by rewrite H. Qed.

Lemma truncated_in_false (input_path : string) (evs : list event) :
  Forall (λ ev, ev ≠ EvOpen input_path WB) evs →
  truncated_in input_path evs = false.
Proof.
  induction 1 as [|ev evs Hev _ IH]; [done|]. simpl. rewrite IH, orb_false_r.
  destruct ev as [| q [] | | | | |]; try done.
  apply bool_decide_eq_false. by intros ->.
Qed.

Lemma events_after_app (evs : list event) st0 st :
  log st = evs ++ log st0 → events_after (length (log st0)) st = evs.
Proof.
  intros H. unfold events_after. rewrite H, length_app.
  replace (length evs + length (log st0) - length (log st0))%nat
    with (length evs) by lia.
  by rewrite take_app_length.
Qed.

(** A run of the loop that returns is a run of its iterations on the
    pages the reader delivered, one for each page of the document. *)
Lemma split_loop_fetched e (max_size_bytes : Z) (output_prefix input_path : string)
    (opened : nat) (pages : list Page) (v : split_vars Page) st
    (v' : split_vars Page) st' :
  split_loop e max_size_bytes output_prefix input_path opened pages v st
  = (Ok v', st') →
  ∃ fetched : list Page,
    length fetched = length pages
    ∧ split_loop_given e max_size_bytes output_prefix fetched v st = (Ok v', st').
Proof.
  revert v st. induction pages as [|page rest IH]; intros v st Hrun.
  - by exists [].
  - simpl in Hrun. apply bind_Ok_inv in Hrun as (page' & st1 & Hfetch & Hrun).
    pose proof (fetch_page_state _ _ _ _ _ _ _ Hfetch) as ->.
    apply bind_Ok_inv in Hrun as (v1 & st1 & Hstep & Hrun).
    destruct (IH _ _ Hrun) as (fetched & Hlen & Hgiven).
    exists (page' :: fetched). split; [simpl; by rewrite Hlen|].
    simpl. by rewrite (bind_run_Ok _ _ _ _ _ Hstep).
Qed.

Lemma log_mark_run st : log_mark st = (Ok (length (log st)), st).
Proof. reflexivity. Qed.

Lemma preserves_fetch_page (R : relation (state Page)) `{!Reflexive R} e
    (input_path : string) (opened : nat) (page : Page) :
  preserves R (fetch_page e input_path opened page).
Proof.
  intros st. destruct (fetch_page e input_path opened page st) as [r st1] eqn:H.
  apply fetch_page_state in H as ->. simpl. reflexivity.
Qed.

Lemma preserves_log_mark (R : relation (state Page)) `{!Reflexive R} :
  preserves R log_mark.
Proof. intros st. simpl. reflexivity. Qed.

(** A run of [split_pdf] past the short-circuit: the loop, then the last
    part. *)
Lemma split_pdf_Ok_inv e (input_path : string) (max_size_mb : Z)
    (output_prefix : option string) st f (pages : list Page)
    (paths : list string) st' :
  files st !! input_path = Some f →
  f_doc f = Some pages →
  max_size_mb * 1024 * 1024 < Z.of_N (f_size f) →
  split_pdf e input_path max_size_mb output_prefix st = (Ok paths, st') →
  ∃ (v : split_vars Page) st1,
    split_loop e (max_size_mb * 1024 * 1024)
      (default (default_prefix input_path) output_prefix) input_path
      (length (log (add_log (EvStat input_path)
                      (add_log (EvOpen input_path RB) st))))
      pages (mkVars [] 1 [] 0)
      (add_log (EvStat input_path) (add_log (EvOpen input_path RB) st))
    = (Ok v, st1)
    ∧ (if Z.of_nat (length (current_writer v)) >? 0 then
         write_pdf e (part_path (default (default_prefix input_path) output_prefix)
                        (current_part v)) (current_writer v);;
         ret (parts v ++ [part_path (default (default_prefix input_path)
                                       output_prefix) (current_part v)])
       else ret (parts v)) st1 = (Ok paths, st').
Proof.
  intros Hf Hdoc Hbig Hrun. unfold split_pdf in Hrun. cbv zeta in Hrun.
  erewrite bind_run_Ok in Hrun; [|by apply open_rb_Some].
  erewrite bind_run_Ok in Hrun; [|by apply getsize_Some].
  destruct (Z.leb_spec (Z.of_N (f_size f)) (max_size_mb * 1024 * 1024)); [lia|].
  unfold PdfReader in Hrun at 1. rewrite Hdoc in Hrun.
  erewrite bind_run_Ok in Hrun; [|reflexivity].
  rewrite (bind_run_Ok _ _ _ _ _ (log_mark_run _)) in Hrun.
  apply bind_Ok_inv in Hrun as (v & st1 & Hloop & Hrun). by exists v, st1.
Qed.

(** What the iterations and the last part leave behind. *)
Lemma split_finish_Ok e (max_size_bytes : Z) (prefix : string)
    (pages : list Page) st (v : split_vars Page) st1
    (paths : list string) st' :
  split_loop_given e max_size_bytes prefix pages (mkVars [] 1 [] 0) st = (Ok v, st1) →
  (if Z.of_nat (length (current_writer v)) >? 0 then
     write_pdf e (part_path prefix (current_part v)) (current_writer v);;
     ret (parts v ++ [part_path prefix (current_part v)])
   else ret (parts v)) st1 = (Ok paths, st') →
  ∃ docs : list (list Page),
    paths = part_paths prefix 1 (length docs)
    ∧ files st' = write_parts e (zip paths docs) (files st)
    ∧ concat docs = pages
    ∧ Forall (part_ok e max_size_bytes) docs
    ∧ Forall (λ part, part ≠ []) docs.
Proof.
  intros Hloop Hrun.
  apply split_loop_Ok in Hloop
    as (sealed & Hparts & Hcur & Hfs & Hcat & Hoks & Hnes & Hsize & Hok);
    [|split; [done|by intros []]].
  simpl in *.
  destruct (Z.gtb_spec (Z.of_nat (length (current_writer v))) 0) as [Hne|Hempty].
  - apply bind_Ok_inv in Hrun as ([] & st2 & Hw & Hret).
    injection Hret as <- <-. apply write_pdf_Ok_inv in Hw as [Hw _].
    assert (current_writer v ≠ []) as Hne' by (by destruct (current_writer v)).
    exists (sealed ++ [current_writer v]).
    rewrite length_app, Nat.add_1_r, part_paths_snoc, Hparts, Hcur.
    split; [done|]. split.
    { rewrite zip_with_app by (by rewrite part_paths_length).
      rewrite write_parts_app. simpl. by rewrite Hw, Hfs, Hcur. }
    split. { rewrite concat_app. simpl. by rewrite app_nil_r. }
    split; apply Forall_app; (split; [done|]); apply Forall_singleton; auto.
  - injection Hrun as <- <-.
    destruct (current_writer v); [|simpl in Hempty; lia].
    exists sealed. rewrite app_nil_r in Hcat. by rewrite Hparts, Hfs, Hcat.
Qed.

(** The same, read back from the file system the call leaves. *)
Lemma split_finish_files e (max_size_bytes : Z) (prefix : string)
    (pages : list Page) st (v : split_vars Page) st1
    (paths : list string) st' :
  split_loop_given e max_size_bytes prefix pages (mkVars [] 1 [] 0) st = (Ok v, st1) →
  (if Z.of_nat (length (current_writer v)) >? 0 then
     write_pdf e (part_path prefix (current_part v)) (current_writer v);;
     ret (parts v ++ [part_path prefix (current_part v)])
   else ret (parts v)) st1 = (Ok paths, st') →
  ∃ docs : list (list Page),
    paths = part_paths prefix 1 (length paths)
    ∧ Forall2 (λ path doc, files st' !! path = Some (pdf_file e doc)) paths docs
    ∧ concat docs = pages
    ∧ Forall (part_ok e max_size_bytes) docs.
Proof.
  intros Hloop Hrun.
  destruct (split_finish_Ok _ _ _ _ _ _ _ _ _ Hloop Hrun)
    as (docs & Hpaths & Hfs & Hcat & Hoks & _).
  assert (length paths = length docs) as Hlen
    by (by rewrite Hpaths, part_paths_length).
  exists docs. split_and!; [by rewrite Hlen | | done..].
  rewrite Hfs. apply write_parts_lookup; [done|].
  rewrite Hpaths. apply part_paths_NoDup.
Qed.

(** The part files of a run past the short-circuit hold, in order, the
    pages the reader delivered. *)
Lemma split_pdf_Ok_files e (input_path : string) (max_size_mb : Z)
    (output_prefix : option string) st f (pages : list Page)
    (paths : list string) st' :
  files st !! input_path = Some f →
  f_doc f = Some pages →
  max_size_mb * 1024 * 1024 < Z.of_N (f_size f) →
  split_pdf e input_path max_size_mb output_prefix st = (Ok paths, st') →
  ∃ (fetched : list Page) (docs : list (list Page)),
    length fetched = length pages
    ∧ paths = part_paths (default (default_prefix input_path) output_prefix) 1
                (length paths)
    ∧ Forall2 (λ path doc, files st' !! path = Some (pdf_file e doc)) paths docs
    ∧ concat docs = fetched
    ∧ Forall (part_ok e (max_size_mb * 1024 * 1024)) docs.
Proof.
  intros Hf Hdoc Hbig Hrun.
  destruct (split_pdf_Ok_inv _ _ _ _ _ _ _ _ _ Hf Hdoc Hbig Hrun)
    as (v & st1 & Hloop & Hfin).
  apply split_loop_fetched in Hloop as (fetched & Hlen & Hgiven).
  destruct (split_finish_files _ _ _ _ _ _ _ _ _ Hgiven Hfin)
    as (docs & Hpaths & Hread & Hcat & Hoks).
  by exists fetched, docs.
Qed.

(** ** A reader whose file is not written over *)

Lemma bind_ext_run {A B} (m : M Page A) (k1 k2 : A → M Page B) st :
  (∀ a st1, m st = (Ok a, st1) → k1 a st1 = k2 a st1) →
  (m ≫= k1) st = (m ≫= k2) st.
Proof.
  intros H. unfold mbind, M_bind, bind.
  destruct (m st) as [[a|ex] st1]; [by apply H | done].
Qed.

Lemma fetch_page_intact e (input_path : string) (page : Page) st0 st :
  log_only (not_truncating input_path) st0 st →
  fetch_page e input_path (length (log st0)) page st = (Ok page, st).
Proof.
  intros (new & Hnew & HQ). apply fetch_page_fresh.
  rewrite (events_after_app new) by done. by apply truncated_in_false.
Qed.

(** The events of an estimate are on its temporary file, which it opens
    in mode [w+b]. *)
Lemma not_truncating_estimate e (input_path : string) (page : Page) :
  preserves (log_only (not_truncating input_path)) (estimate_page_size e page).
Proof.
  intros st. unfold estimate_page_size. unfold_calls. unfold_monad. simpl.
  match goal with
  | |- context [path_exists ?s ?name] =>
      destruct (path_exists s name) eqn:Hex; set (temp := name) in *
  end; simpl.
  { by exists []. }
  destruct (write_outcome_at e temp); simpl.
  - rewrite lookup_insert_eq. simpl.
    exists [EvUnlink temp; EvStat temp; EvOpen temp WPlusB].
    split; [done|]. repeat constructor; done.
  - exists [EvUnlink temp; EvOpen temp WPlusB].
    split; [done|]. repeat constructor; done.
  - exists [EvUnlink temp; EvOpen temp WPlusB].
    split; [done|]. repeat constructor; done.
Qed.

Lemma not_truncating_split_step e (input_path : string) (max_size_bytes : Z)
    (output_prefix : string) (page : Page) (v : split_vars Page) :
  (∀ n, part_path output_prefix n ≠ input_path) →
  preserves (log_only (not_truncating input_path))
    (split_step e max_size_bytes output_prefix page v).
Proof.
  intros Hne. unfold split_step.
  apply preserves_bind; [apply _ | apply not_truncating_estimate |]. intros n.
  apply preserves_bind; [apply _ | | intros ?; apply preserves_ret, _].
  destruct (_ && _); [|apply preserves_ret, _].
  apply preserves_bind; [apply _ | | intros _; apply preserves_ret, _].
  apply log_only_write_pdf. intros [= H]. by apply (Hne (current_part v)).
Qed.

(** An iteration that does not seal a part opens no file for writing
    but the temporary file of its estimate. *)
Lemma not_truncating_no_seal e (input_path : string) (max_size_bytes : Z)
    (output_prefix : string) (page : Page) (v : split_vars Page)
    st (r : result (split_vars Page)) st' :
  seals e max_size_bytes page v = false →
  split_step e max_size_bytes output_prefix page v st = (r, st') →
  log_only (not_truncating input_path) st st'.
Proof.
  intros Hseals Hrun. unfold split_step in Hrun.
  pose proof (not_truncating_estimate e input_path page st) as Hest.
  apply bind_inv in Hrun as [(n & st1 & Hn & Hrun)|(ex & Hn & ->)];
    rewrite Hn in Hest; simpl in Hest; [|done].
  apply estimate_page_size_Ok in Hn as (-> & _).
  unfold seals, estimate in Hseals. rewrite Hseals in Hrun.
  by injection Hrun as _ <-.
Qed.

(** When no part name is the input path, the reader delivers the pages
    of the document as they were when it was opened. *)
Lemma split_loop_intact e (max_size_bytes : Z) (output_prefix input_path : string)
    (pages : list Page) (v : split_vars Page) st0 st :
  (∀ n, part_path output_prefix n ≠ input_path) →
  log_only (not_truncating input_path) st0 st →
  split_loop e max_size_bytes output_prefix input_path (length (log st0)) pages v st
  = split_loop_given e max_size_bytes output_prefix pages v st.
Proof.
  intros Hne. revert v st. induction pages as [|page rest IH]; intros v st Hlog.
  - done.
  - simpl. rewrite (bind_run_Ok _ _ _ _ _ (fetch_page_intact _ _ _ _ _ Hlog)).
    apply bind_ext_run. intros v1 st1 Hstep. apply IH.
    etrans; [exact Hlog|].
    pose proof (not_truncating_split_step e input_path max_size_bytes
                  output_prefix page v Hne st) as H.
    by rewrite Hstep in H.
Qed.

(** Pages that fit the current part are added to it one by one, and no
    part is sealed. *)
Lemma split_loop_fits e (max_size_bytes : Z) (output_prefix input_path : string)
    (pages : list Page) (v : split_vars Page) st0 st
    (v' : split_vars Page) st' :
  log_only (not_truncating input_path) st0 st →
  current_size_estimate v + part_estimate e pages ≤ max_size_bytes →
  split_loop e max_size_bytes output_prefix input_path (length (log st0)) pages v st
  = (Ok v', st') →
  parts v' = parts v ∧ current_part v' = current_part v
  ∧ current_writer v' = current_writer v ++ pages
  ∧ files st' = files st.
Proof.
  revert v st. induction pages as [|page rest IH]; intros v st Hlog Hfits Hrun.
  - injection Hrun as <- <-. by rewrite app_nil_r.
  - simpl in Hrun, Hfits.
    rewrite (bind_run_Ok _ _ _ _ _ (fetch_page_intact _ _ _ _ _ Hlog)) in Hrun.
    apply bind_Ok_inv in Hrun as (v1 & st1 & Hstep & Hrun).
    pose proof (part_estimate_nonneg e rest) as Hrest.
    assert (seals e max_size_bytes page v = false) as Hseals.
    { unfold seals. apply andb_false_intro1.
      destruct (Z.gtb_spec (current_size_estimate v + estimate e page)
                  max_size_bytes); [lia | done]. }
    pose proof (not_truncating_no_seal _ input_path _ _ _ _ _ _ _ Hseals Hstep)
      as Hlog1.
    apply split_step_Ok in Hstep. rewrite Hseals in Hstep.
    destruct Hstep as [-> Hfiles].
    apply IH in Hrun as (Hp & Hc & Hw & Hf); simpl in *;
      [| by etrans | lia].
    by rewrite Hp, Hc, Hw, Hf, Hfiles, <- (assoc_L (++)).
Qed.


(** C2: past the short-circuit, every part file [split_pdf] returns holds
    a document whose accumulated page estimate is at most the threshold,
    unless it is a single page whose own estimate exceeds the threshold;
    a page whose estimate exceeds the threshold is alone in its part; so a
    part of two or more pages is within the threshold.  (By [split_inv],
    the accumulated estimate of a part is the value of
    [current_size_estimate] when the part is written.) *)
Theorem split_parts_within_budget e (input_path : string) (max_size_mb : Z)
    (output_prefix : option string) st f (pages : list Page)
    (paths : list string) st' :
  files st !! input_path = Some f →
  f_doc f = Some pages →
  max_size_mb * 1024 * 1024 < Z.of_N (f_size f) →
  split_pdf e input_path max_size_mb output_prefix st = (Ok paths, st') →
  ∀ path, path ∈ paths →
    ∃ doc : list Page,
      files st' !! path = Some (pdf_file e doc)
      ∧ (part_estimate e doc ≤ max_size_mb * 1024 * 1024
         ∨ ∃ page, doc = [page] ∧ max_size_mb * 1024 * 1024 < estimate e page)
      ∧ (∀ page, page ∈ doc →
           max_size_mb * 1024 * 1024 < estimate e page → doc = [page])
      ∧ ((2 ≤ length doc)%nat → part_estimate e doc ≤ max_size_mb * 1024 * 1024).
Proof.
  intros Hf Hdoc Hbig Hrun path Hin.
  destruct (split_pdf_Ok_files _ _ _ _ _ _ _ _ _ Hf Hdoc Hbig Hrun)
    as (fetched & docs & _ & _ & Hread & _ & Hoks).
  apply list_elem_of_lookup in Hin as [i Hi].
  destruct (Forall2_lookup_l _ _ _ _ _ Hread Hi) as (doc & Hdoci & Hfile).
  pose proof (Forall_lookup_1 _ _ _ _ Hoks Hdoci) as [Hbudget Halone].
  exists doc. split_and!; [done..|].
  intros Hlen. destruct Hbudget as [?|(page & -> & _)]; [done|].
  simpl in Hlen. lia.
Qed.

(** ** The input file is only read *)

#[local] Instance same_at_preorder (input_path : string) :
  PreOrder (same_at (Page := Page) input_path).
Proof.
  split.
  - by intros st.
  - intros st1 st2 st3 H1 H2. unfold same_at in *. by rewrite H2.
Qed.

#[local] Instance untouched_preorder (input_path : string) :
  PreOrder (untouched (Page := Page) input_path).
Proof.
  split.
  - intros st _. split; reflexivity.
  - intros st1 st2 st3 H1 H2 Hf. destruct (H1 Hf) as [Hs1 Hl1].
    assert (is_Some (files st2 !! input_path)) as Hf2 by (by rewrite Hs1).
    destruct (H2 Hf2) as [Hs2 Hl2]. split; by etrans.
Qed.

Lemma untouched_intro {A} (input_path : string) (m : M Page A) :
  preserves (same_at input_path) m →
  preserves (log_only (read_only input_path)) m →
  preserves (untouched input_path) m.
Proof. intros Hs Hl st _. split; [apply Hs | apply Hl]. Qed.

Lemma same_at_modify (input_path : string) (g : state Page → state Page) :
  (∀ st, files (g st) !! input_path = files st !! input_path) →
  preserves (same_at input_path) (modify g).
Proof. intros H st. apply H. Qed.

Ltac same_at_calls :=
  unfold_calls; unfold emit, print;
  repeat first
    [ progress preserves_structure
    | apply same_at_modify; intros ?; simpl;
      first [ done | by rewrite lookup_insert_ne by done ] ].

Lemma read_only_other (input_path p : string) (m : open_mode) :
  p ≠ input_path → read_only input_path (EvOpen p m).
Proof. intros Hne m' [= -> _]. done. Qed.

Section Untouched.

Context (e : env Page) (input_path : string).

Lemma same_at_open_rb (p : string) :
  preserves (same_at input_path) (open_rb (Page := Page) p).
Proof. same_at_calls. Qed.

Lemma same_at_getsize (p : string) :
  preserves (same_at input_path) (os_path_getsize e p).
Proof. same_at_calls. Qed.

Lemma same_at_write_pdf (p : string) (writer : list Page) :
  p ≠ input_path → preserves (same_at input_path) (write_pdf e p writer).
Proof. intros. same_at_calls. Qed.

Lemma same_at_run_ghostscript (temp_pdf output_path : string) (dpi quality : Z) :
  output_path ≠ input_path →
  preserves (same_at input_path)
    (_run_ghostscript e temp_pdf output_path dpi quality).
Proof.
  intros Hne st. unfold _run_ghostscript. unfold_calls. unfold_monad. simpl.
  destruct (gs_on_path e); simpl; [|done].
  destruct (gs_output e), (gs_failure e); unfold same_at; simpl;
    by rewrite ?lookup_insert_ne by done.
Qed.

Lemma untouched_open_rb :
  preserves (untouched input_path) (open_rb (Page := Page) input_path).
Proof.
  apply untouched_intro; [apply same_at_open_rb|].
  apply log_only_open_rb. by intros m [= <-].
Qed.

Lemma untouched_getsize (p : string) :
  preserves (untouched input_path) (os_path_getsize e p).
Proof.
  apply untouched_intro; [apply same_at_getsize|].
  by apply log_only_getsize.
Qed.

Lemma untouched_write_pdf (p : string) (writer : list Page) :
  p ≠ input_path → preserves (untouched input_path) (write_pdf e p writer).
Proof.
  intros Hne. apply untouched_intro; [by apply same_at_write_pdf|].
  by apply log_only_write_pdf, read_only_other.
Qed.

(** The temporary file of an estimate is new, so it is not the input. *)
Lemma untouched_estimate (page : Page) :
  preserves (untouched input_path) (estimate_page_size e page).
Proof.
  intros st [f Hf].
  unfold estimate_page_size. unfold_calls. unfold_monad. simpl.
  match goal with
  | |- context [path_exists ?s ?name] =>
      destruct (path_exists s name) eqn:Hex; set (temp := name) in *
  end; simpl.
  { split; [done | by exists []]. }
  assert (temp ≠ input_path) as Hne.
  { intros Heq. apply orb_false_elim in Hex as [Hfile _].
    apply bool_decide_eq_false in Hfile. apply Hfile.
    simpl. rewrite Heq, Hf. by eexists. }
  pose proof (read_only_other input_path temp WPlusB Hne) as Hopen.
  destruct (write_outcome_at e temp); simpl.
  - rewrite lookup_insert_eq. simpl. split.
    + unfold same_at. simpl.
      by rewrite lookup_delete_ne, !lookup_insert_ne by done.
    + exists [EvUnlink temp; EvStat temp; EvOpen temp WPlusB].
      split; [done|]. repeat constructor; done.
  - split.
    + unfold same_at. simpl.
      by rewrite lookup_delete_ne, !lookup_insert_ne by done.
    + exists [EvUnlink temp; EvOpen temp WPlusB].
      split; [done|]. repeat constructor; done.
  - split.
    + unfold same_at. simpl.
      by rewrite lookup_delete_ne, !lookup_insert_ne by done.
    + exists [EvUnlink temp; EvOpen temp WPlusB].
      split; [done|]. repeat constructor; done.
Qed.

Lemma untouched_split_step (max_size_bytes : Z) (output_prefix : string)
    (page : Page) (v : split_vars Page) :
  (∀ n, part_path output_prefix n ≠ input_path) →
  preserves (untouched input_path)
    (split_step e max_size_bytes output_prefix page v).
Proof.
  intros Hne. unfold split_step.
  apply preserves_bind; [apply _ | apply untouched_estimate |]. intros n.
  apply preserves_bind; [apply _ | | intros ?; apply preserves_ret, _].
  destruct (_ && _); [|apply preserves_ret, _].
  apply preserves_bind; [apply _ | by apply untouched_write_pdf |].
  intros _. apply preserves_ret, _.
Qed.

Lemma untouched_split_loop (max_size_bytes : Z) (output_prefix : string)
    (opened : nat) (pages : list Page) (v : split_vars Page) :
  (∀ n, part_path output_prefix n ≠ input_path) →
  preserves (untouched input_path)
    (split_loop e max_size_bytes output_prefix input_path opened pages v).
Proof.
  intros Hne. revert v. induction pages as [|page rest IH]; intros v; simpl.
  - apply preserves_ret, _.
  - apply preserves_bind; [apply _ | apply preserves_fetch_page, _ |].
    intros page'.
    apply preserves_bind; [apply _ | by apply untouched_split_step | apply IH].
Qed.

Lemma untouched_split_pdf (max_size_mb : Z) (output_prefix : option string) :
  (∀ n, part_path (default (default_prefix input_path) output_prefix) n
        ≠ input_path) →
  preserves (untouched input_path)
    (split_pdf e input_path max_size_mb output_prefix).
Proof.
  intros Hne. unfold split_pdf. cbv zeta.
  apply preserves_bind; [apply _ | apply untouched_open_rb |]. intros f.
  apply preserves_bind; [apply _ | apply untouched_getsize |]. intros size.
  destruct (_ <=? _).
  { apply untouched_intro; [same_at_calls | log_only_calls]. }
  apply preserves_bind; [apply _ | | intros pdf].
  { unfold PdfReader.
    destruct (f_doc f); [apply preserves_ret, _ | apply preserves_raise, _]. }
  apply preserves_bind; [apply _ | apply preserves_log_mark, _ |]. intros opened.
  apply preserves_bind; [apply _ | by apply untouched_split_loop |]. intros v.
  destruct (_ >? _); [|apply preserves_ret, _].
  apply preserves_bind; [apply _ | by apply untouched_write_pdf |].
  intros _. apply preserves_ret, _.
Qed.

Lemma same_at_compress_body (output_path temp_dir : string) (s : settings) :
  os_path.join temp_dir "temp.pdf" ≠ input_path →
  output_path ≠ input_path →
  preserves (same_at input_path)
    (f ← open_rb input_path;
     pdf ← PdfReader input_path f;
     let writer := foldl add_page [] pdf in
     let temp_pdf := os_path.join temp_dir "temp.pdf" in
     write_pdf e temp_pdf writer;;
     _run_ghostscript e temp_pdf output_path (s_dpi s) (s_quality s)).
Proof.
  intros Ht Ho.
  apply preserves_bind; [apply _ | apply same_at_open_rb |]. intros f.
  apply preserves_bind; [apply _ | same_at_calls |]. intros pdf. cbv zeta.
  apply preserves_bind; [apply _ | by apply same_at_write_pdf |]. intros _.
  by apply same_at_run_ghostscript.
Qed.

Lemma lookup_filter_out_of_tree (d : string) (fs : gmap string (File Page)) :
  in_tree d input_path = false →
  filter (λ kv, in_tree d kv.1 = false) fs !! input_path = fs !! input_path.
Proof.
  intros Hout. destruct (fs !! input_path) as [f|] eqn:Hf.
  - by apply map_lookup_filter_Some_2.
  - apply map_lookup_filter_None_2. by left.
Qed.

Lemma read_only_elim st st' :
  log_only (read_only input_path) st st' →
  ∃ new, events_since st st' new ∧ ∀ m, EvOpen input_path m ∈ new → m = RB.
Proof.
  intros (new & Hnew & HQ). exists new. split; [done|].
  intros m Hin. rewrite Forall_forall in HQ. by apply (HQ _ Hin).
Qed.

Lemma compress_pdf_intact (output_path quality : string) st (r : result unit) st' :
  output_path ≠ input_path →
  compress_pdf e input_path output_path quality st = (r, st') →
  same_at input_path st st' ∧ log_only (read_only input_path) st st'.
Proof.
  intros Hout Hrun. unfold compress_pdf in Hrun.
  destruct (quality_settings !! quality) as [s|];
    [|injection Hrun as _ <-; split; reflexivity].
  apply bind_inv in Hrun as [(d & st1 & Hmk & Hrun)|(ex & Hmk & ->)].
  2:{ apply mkdtemp_Raise in Hmk as ->. split; [done | by exists []]. }
  apply mkdtemp_Ok in Hmk as (Hex & Hfiles & _ & Hst1).
  assert (files st1 = files st) as Hfs1 by (by rewrite Hst1).
  assert (log st1 = EvMkdtemp d :: log st) as Hlog1 by (by rewrite Hst1).
  clear Hst1.
  apply try_finally_inv in Hrun as (r2 & st2 & Hbody & Hfin).
  assert (st' = set_dirs (filter (λ p, in_tree d p = false))
                  (set_files (filter (λ kv, in_tree d kv.1 = false))
                     (add_log (EvRmtree d) st2))) as ->.
  { destruct Hfin as [[Hfin _]|(? & Hfin & _)]; by injection Hfin. }
  clear Hfin. unfold same_at, events_since. simpl.
  destruct (files st !! input_path) as [f|] eqn:Hf.
  - assert (under d input_path = false) as Hunder by (by apply (Hfiles _ f)).
    assert (in_tree d input_path = false) as Htree.
    { unfold in_tree. rewrite Hunder, orb_false_r.
      apply bool_decide_eq_false. intros ->.
      apply orb_false_elim in Hex as [Hfile _].
      apply bool_decide_eq_false in Hfile. apply Hfile. by eexists. }
    assert (os_path.join d "temp.pdf" ≠ input_path) as Htemp.
    { intros Heq. rewrite <- Heq, temp_pdf_under in Hunder. done. }
    pose proof (same_at_compress_body output_path d s Htemp Hout st1) as Hsame.
    pose proof (log_only_compress_body (read_only input_path) e
                  input_path output_path d s
                  ltac:(by intros m [= <-])
                  ltac:(by apply read_only_other)
                  ltac:(done) ltac:(done) st1) as Hlog.
    cbv zeta in Hbody, Hsame, Hlog. rewrite Hbody in Hsame, Hlog.
    unfold same_at in Hsame. simpl in Hsame, Hlog.
    destruct Hlog as (new & Hnew & HQ). split.
    + by rewrite lookup_filter_out_of_tree, Hsame, Hfs1.
    + exists (EvRmtree d :: new ++ [EvMkdtemp d]). unfold events_since in *.
      simpl. split; [by rewrite Hnew, Hlog1, <- (assoc_L (++))|].
      constructor; [done|]. apply Forall_app. split; [done|].
      by constructor.
  - assert (st2 = add_log (EvOpen input_path RB) st1) as ->.
    { destruct (open_rb_None input_path st1) as [ex Hopen]; [by rewrite Hfs1|].
      rewrite (bind_run_Raise _ _ _ _ _ Hopen) in Hbody. by injection Hbody. }
    split.
    + simpl. rewrite Hfs1. apply map_lookup_filter_None_2. by left.
    + exists [EvRmtree d; EvOpen input_path RB; EvMkdtemp d].
      split; [unfold events_since; simpl; by rewrite Hlog1|].
      repeat constructor; try done. by intros m [= <-].
Qed.

Lemma split_pdf_intact (max_size_mb : Z) (output_prefix : option string)
    st (r : result (list string)) st' :
  (∀ n, part_path (default (default_prefix input_path) output_prefix) n
        ≠ input_path) →
  split_pdf e input_path max_size_mb output_prefix st = (r, st') →
  same_at input_path st st' ∧ log_only (read_only input_path) st st'.
Proof.
  intros Hne Hrun. destruct (files st !! input_path) as [f|] eqn:Hf.
  - pose proof (untouched_split_pdf max_size_mb output_prefix Hne st) as H.
    rewrite Hrun in H. apply H. rewrite Hf. by eexists.
  - unfold split_pdf in Hrun. cbv zeta in Hrun.
    destruct (open_rb_None input_path st Hf) as [ex Hopen].
    rewrite (bind_run_Raise _ _ _ _ _ Hopen) in Hrun.
    injection Hrun as _ <-.
    split.
    + done.
    + exists [EvOpen input_path RB]. split; [done|].
      repeat constructor. by intros m [= <-].
Qed.

End Untouched.

(** C10: [compress_pdf] with an output path other than the input path,
    and [split_pdf] when none of the part names it can generate is the
    input path, leave the file at the input path (or its absence) as it
    was, and every open of the input path they perform is for reading;
    this holds whether the call returns or raises. *)
Theorem input_left_intact e (input_path : string) :
  (∀ (output_path quality : string) st (r : result unit) st',
     output_path ≠ input_path →
     compress_pdf e input_path output_path quality st = (r, st') →
     files st' !! input_path = files st !! input_path
     ∧ ∃ new, events_since st st' new
         ∧ ∀ m, EvOpen input_path m ∈ new → m = RB)
  ∧ (∀ (max_size_mb : Z) (output_prefix : option string) st
       (r : result (list string)) st',
       (∀ n : Z,
          default (default_prefix input_path) output_prefix
          +:+ "_part" +:+ pretty n +:+ ".pdf" ≠ input_path) →
       split_pdf e input_path max_size_mb output_prefix st = (r, st') →
       files st' !! input_path = files st !! input_path
       ∧ ∃ new, events_since st st' new
           ∧ ∀ m, EvOpen input_path m ∈ new → m = RB).
Proof.
  split.
  - intros output_path quality st r st' Hout Hrun.
    destruct (compress_pdf_intact e input_path _ _ _ _ _ Hout Hrun) as [Hs Hl].
    split; [exact Hs | by apply read_only_elim].
  - intros max_size_mb output_prefix st r st' Hne Hrun.
    destruct (split_pdf_intact e input_path _ _ _ _ _ Hne Hrun) as [Hs Hl].
    split; [exact Hs | by apply read_only_elim].
Qed.

(** ** Dispatch in [main] *)

Lemma exists_run (p : string) st :
  os_path_exists p st = (Ok (path_exists st p), add_log (EvStat p) st).
Proof.
  unfold os_path_exists. unfold_monad. simpl.
  unfold path_exists. reflexivity.
Qed.

(** A split size that is not zero sends [main] to [split_pdf]. *)
Lemma main_split_mode e (a : args) (n : Z) st :
  path_exists st (a_input a) = true →
  a_split a = Some n → n ≠ 0 → a_verbose a = false →
  main e a st
  = match split_pdf e (a_input a) n (a_prefix a) (add_log (EvStat (a_input a)) st) with
    | (Ok _, st1) => (Ok tt, st1)
    | (Raise ex, st1) =>
        if is_Exception ex
        then (Raise (SystemExit 1), add_stderr ("Error: " +:+ exn_str e ex) st1)
        else (Raise ex, st1)
    end.
Proof.
  intros Hex Hsplit Hn Hv. unfold main.
  rewrite (bind_run_Ok _ _ _ _ _ (exists_run _ _)), Hex. simpl.
  rewrite Hsplit, Hv. simpl.
  destruct (Z.eqb_spec n 0) as [?|_]; [done|]. simpl.
  unfold try_except. unfold_monad. simpl.
  destruct (split_pdf e (a_input a) n (a_prefix a) _) as [[paths|ex] st1];
    simpl; [done|].
  by destruct (is_Exception ex).
Qed.

(** Without a split size, or with the split size zero, [main] goes to
    compression, and stops there with status 1 when no output path is
    given. *)
Lemma main_compress_needs_output e (a : args) st :
  path_exists st (a_input a) = true →
  truthy_int (a_split a) = false →
  truthy_str (a_output a) = false →
  main e a st
  = (Raise (SystemExit 1),
     add_stderr "Error: Output path required for compression."
       (add_log (EvStat (a_input a)) st)).
Proof.
  intros Hex Hsplit Hout. unfold main.
  rewrite (bind_run_Ok _ _ _ _ _ (exists_run _ _)), Hex. simpl.
  rewrite Hsplit, Hout. simpl.
  unfold try_except. unfold_monad. simpl. reflexivity.
Qed.

(** ** What the calls leave alone *)

#[local] Instance frame_except_preorder (S : string → Prop) :
  PreOrder (frame_except (Page := Page) S).
Proof.
  split.
  - by intros st.
  - intros st1 st2 st3 [Hd1 Hf1] [Hd2 Hf2]. split; [by rewrite Hd2|].
    intros p Hp. by rewrite Hf2, Hf1.
Qed.

Lemma frame_modify_id (S : string → Prop) (g : state Page → state Page) :
  (∀ st, dirs (g st) = dirs st ∧ files (g st) = files st) →
  preserves (frame_except S) (modify g).
Proof. intros H st. destruct (H st) as [Hd Hf]. split; simpl; [done|]. by rewrite Hf. Qed.

Lemma frame_insert (S : string → Prop) (q : string) (x : File Page) :
  S q → preserves (frame_except S) (modify (set_files <[q := x]>)).
Proof.
  intros Hq st. split; [done|]. intros p Hp. simpl.
  apply lookup_insert_ne. by intros ->.
Qed.

Ltac frame_calls :=
  unfold_calls; unfold emit, print;
  repeat first
    [ progress preserves_structure
    | apply frame_insert; done
    | apply frame_modify_id; intros ?; split; reflexivity ].

Section Frame.

Context (e : env Page) (S : string → Prop).

Lemma frame_open_rb (p : string) :
  preserves (frame_except S) (open_rb (Page := Page) p).
Proof. frame_calls. Qed.

Lemma frame_getsize (p : string) :
  preserves (frame_except S) (os_path_getsize e p).
Proof. frame_calls. Qed.

Lemma frame_write_pdf (p : string) (writer : list Page) :
  S p → preserves (frame_except S) (write_pdf e p writer).
Proof. intros. frame_calls. Qed.

Lemma frame_run_ghostscript (temp_pdf output_path : string) (dpi quality : Z) :
  S output_path →
  preserves (frame_except S)
    (_run_ghostscript e temp_pdf output_path dpi quality).
Proof.
  intros Hout st. unfold _run_ghostscript. unfold_calls. unfold_monad. simpl.
  destruct (gs_on_path e); simpl; [|done].
  destruct (gs_output e), (gs_failure e); split; simpl; try done;
    intros p Hp; apply lookup_insert_ne; by intros ->.
Qed.

(** An estimate leaves no trace in the file system, however it ends. *)
Lemma estimate_page_size_files (page : Page) st (r : result N) st' :
  estimate_page_size e page st = (r, st') →
  files st' = files st ∧ dirs st' = dirs st.
Proof.
  unfold estimate_page_size. unfold_calls. unfold_monad. simpl.
  match goal with
  | |- context [path_exists ?s ?name] => destruct (path_exists s name) eqn:Hex
  end; simpl; [by intros [= _ <-]|].
  apply orb_false_elim in Hex as [Hfile _].
  apply bool_decide_eq_false in Hfile. rewrite <- eq_None_not_Some in Hfile.
  simpl in Hfile.
  destruct (write_outcome_at e _); simpl; rewrite ?lookup_insert_eq; simpl;
    intros [= _ <-]; simpl; by rewrite ?delete_insert_eq, delete_id.
Qed.

Lemma frame_estimate (page : Page) :
  preserves (frame_except S) (estimate_page_size e page).
Proof.
  intros st. destruct (estimate_page_size e page st) as [r st'] eqn:Hrun.
  apply estimate_page_size_files in Hrun as [Hf Hd]. split; simpl; [done|].
  intros p _. by rewrite Hf.
Qed.

Lemma frame_split_loop (max_size_bytes : Z) (output_prefix input_path : string)
    (opened : nat) (pages : list Page) (v : split_vars Page) :
  (∀ n, S (part_path output_prefix n)) →
  preserves (frame_except S)
    (split_loop e max_size_bytes output_prefix input_path opened pages v).
Proof.
  intros HS. revert v. induction pages as [|page rest IH]; intros v; simpl.
  - apply preserves_ret, _.
  - apply preserves_bind; [apply _ | apply preserves_fetch_page, _ |].
    intros page'.
    apply preserves_bind; [apply _ | | apply IH]. unfold split_step.
    apply preserves_bind; [apply _ | apply frame_estimate |]. intros n.
    apply preserves_bind; [apply _ | | intros ?; apply preserves_ret, _].
    destruct (_ && _); [|apply preserves_ret, _].
    apply preserves_bind; [apply _ | by apply frame_write_pdf |].
    intros _. apply preserves_ret, _.
Qed.

End Frame.

(** X1: whatever [split_pdf] does and however it ends, the directories
    are as before and so is every file whose path is not a part name
    [<prefix>_part<n>.pdf]: the temporary files of the estimates never
    outlive the call. *)
Theorem split_pdf_frame e (input_path : string) (max_size_mb : Z)
    (output_prefix : option string) st (r : result (list string)) st' :
  split_pdf e input_path max_size_mb output_prefix st = (r, st') →
  dirs st' = dirs st
  ∧ ∀ p, (∀ n : Z, p ≠ default (default_prefix input_path) output_prefix
                        +:+ "_part" +:+ pretty n +:+ ".pdf") →
         files st' !! p = files st !! p.
Proof.
  intros Hrun.
  set (prefix := default (default_prefix input_path) output_prefix).
  assert (preserves (frame_except (is_part_path prefix))
            (split_pdf e input_path max_size_mb output_prefix)) as H.
  { unfold split_pdf. cbv zeta. fold prefix.
    apply preserves_bind; [apply _ | apply frame_open_rb |]. intros f.
    apply preserves_bind; [apply _ | apply frame_getsize |]. intros size.
    destruct (_ <=? _); [frame_calls|].
    apply preserves_bind; [apply _ | frame_calls | intros pdf].
    apply preserves_bind; [apply _ | apply preserves_log_mark, _ |].
    intros opened.
    apply preserves_bind; [apply _ | |]; [| intros v].
    { apply frame_split_loop. intros n. by exists n. }
    destruct (_ >? _); [|apply preserves_ret, _].
    apply preserves_bind; [apply _ | | intros _; apply preserves_ret, _].
    apply frame_write_pdf. by eexists. }
  specialize (H st). rewrite Hrun in H. destruct H as [Hd Hf].
  split; [done|]. intros p Hp. apply Hf. intros [n ->]. by apply (Hp n).
Qed.

(** X2: whatever [compress_pdf] does and however it ends, the directories
    are as before and so is every file other than the one at the output
    path: the scratch directory and the intermediate file never outlive
    the call, and nothing else is written. *)
Theorem compress_pdf_frame e (input_path output_path quality : string)
    st (r : result unit) st' :
  compress_pdf e input_path output_path quality st = (r, st') →
  dirs st' = dirs st
  ∧ ∀ p, p ≠ output_path → files st' !! p = files st !! p.
Proof.
  intros Hrun. unfold compress_pdf in Hrun.
  destruct (quality_settings !! quality) as [s|]; [|by injection Hrun as _ <-].
  apply bind_inv in Hrun as [(d & st1 & Hmk & Hrun)|(ex & Hmk & ->)].
  2:{ by apply mkdtemp_Raise in Hmk as ->. }
  apply mkdtemp_Ok in Hmk as (Hex & Hfiles & Hdirs & Hst1).
  assert (files st1 = files st) as Hfs1 by (by rewrite Hst1).
  assert (dirs st1 = {[d]} ∪ dirs st) as Hds1 by (by rewrite Hst1).
  clear Hst1.
  apply orb_false_elim in Hex as [Hfile Hdir].
  apply bool_decide_eq_false in Hfile, Hdir.
  rewrite <- eq_None_not_Some in Hfile.
  apply try_finally_inv in Hrun as (r2 & st2 & Hbody & Hfin).
  assert (st' = set_dirs (filter (λ p, in_tree d p = false))
                  (set_files (filter (λ kv, in_tree d kv.1 = false))
                     (add_log (EvRmtree d) st2))) as ->.
  { destruct Hfin as [[Hfin _]|(? & Hfin & _)]; by injection Hfin. }
  clear Hfin. set (temp := os_path.join d "temp.pdf") in *.
  assert (frame_except (λ p, p = output_path ∨ p = temp) st1 st2)
    as [Hd2 Hf2].
  { assert (preserves (frame_except (λ p, p = output_path ∨ p = temp))
              (f ← open_rb input_path;
               pdf ← PdfReader input_path f;
               write_pdf e temp (foldl add_page [] pdf);;
               _run_ghostscript e temp output_path (s_dpi s) (s_quality s)))
      as H.
    { apply preserves_bind; [apply _ | apply frame_open_rb |]. intros f.
      apply preserves_bind; [apply _ | frame_calls | intros pdf].
      apply preserves_bind; [apply _ | apply frame_write_pdf; by right |].
      intros _. apply frame_run_ghostscript. by left. }
    specialize (H st1). cbv zeta in Hbody. by rewrite Hbody in H. }
  simpl. split.
  - rewrite Hd2, Hds1. apply set_eq. intros x.
    rewrite elem_of_filter, elem_of_union, elem_of_singleton. split.
    + intros [Hx [->|Hin]]; [by rewrite in_tree_self in Hx | done].
    + intros Hin. split; [|by right]. unfold in_tree.
      rewrite (Hdirs x Hin), orb_false_r. apply bool_decide_eq_false.
      by intros ->.
  - intros p Hp. destruct (in_tree d p) eqn:Htree.
    + assert (files st !! p = None) as ->.
      { unfold in_tree in Htree. apply orb_true_iff in Htree as [Heq|Hunder].
        - apply bool_decide_eq_true in Heq as ->. done.
        - destruct (files st !! p) as [f|] eqn:Hf; [|done].
          by rewrite (Hfiles p f Hf) in Hunder. }
      apply map_lookup_filter_None_2. right. intros f _. simpl.
      by rewrite Htree.
    + rewrite (lookup_filter_out_of_tree p d) by done.
      rewrite Hf2, Hfs1; [done|]. intros [? | ->]; [done|].
      unfold temp in Htree. by rewrite (in_tree_under _ _ (temp_pdf_under d)) in Htree.
Qed.

(** ** The engine step of [compress_pdf] *)

Lemma foldl_add_page (writer pdf : list Page) :
  foldl add_page writer pdf = writer ++ pdf.
Proof.
  revert writer. induction pdf as [|page pdf IH]; intros writer; simpl.
  - by rewrite app_nil_r.
  - rewrite IH. unfold add_page. by rewrite <- (assoc_L (++)).
Qed.

Lemma run_ghostscript_found e (input_path output_path : string) (dpi quality : Z) st :
  gs_on_path e = true →
  _run_ghostscript e input_path output_path dpi quality st
  = (match gs_failure e with
     | Some detail =>
         Raise (RuntimeError ("Ghostscript compression failed: " +:+ detail))
     | None => Ok tt
     end,
     match gs_output e with
     | Some f => set_files <[output_path := f]>
     | None => id
     end (add_log (EvSpawn (gs_command (_get_gs_preset dpi quality)
                              output_path input_path))
            (add_log (EvWhich "gs") st))).
Proof.
  intros H. unfold _run_ghostscript, shutil_which, subprocess_run.
  unfold_monad. simpl. rewrite H. simpl.
  by destruct (gs_output e), (gs_failure e).
Qed.

(** A call whose quality name is valid, whose scratch directory is
    created, whose input is a PDF and whose intermediate file is written
    comes down to the engine run on the intermediate file, followed by the
    removal of the scratch directory. *)
Lemma compress_pdf_reaches_engine e (input_path output_path quality : string)
    st (s : settings) (d : string) st1 f (pages : list Page) :
  quality_settings !! quality = Some s →
  mkdtemp e st = (Ok d, st1) →
  files st !! input_path = Some f →
  f_doc f = Some pages →
  write_outcome_at e (os_path.join d "temp.pdf") = WriteOk →
  compress_pdf e input_path output_path quality st
  = try_finally
      (_run_ghostscript e (os_path.join d "temp.pdf") output_path
         (s_dpi s) (s_quality s))
      (rmtree d)
      (set_files <[os_path.join d "temp.pdf" := pdf_file e pages]>
         (set_files <[os_path.join d "temp.pdf" := empty_file]>
            (add_log (EvOpen (os_path.join d "temp.pdf") WB)
               (add_log (EvOpen input_path RB) st1)))).
Proof.
  intros Hs Hmk Hf Hdoc Hw. unfold compress_pdf. rewrite Hs.
  rewrite (bind_run_Ok _ _ _ _ _ Hmk).
  apply mkdtemp_Ok in Hmk as (Hex & _ & Hdirs & ->).
  unfold try_finally at 1.
  erewrite bind_run_Ok; [|by apply open_rb_Some].
  unfold PdfReader at 1. rewrite Hdoc.
  erewrite bind_run_Ok; [|reflexivity]. cbv zeta.
  rewrite foldl_add_page. simpl.
  erewrite bind_run_Ok; [reflexivity|]. apply write_pdf_Ok; [|done].
  simpl. rewrite elem_of_union, elem_of_singleton.
  intros [Heq|Hin]; [by apply temp_pdf_ne in Heq|].
  apply Hdirs in Hin. by rewrite temp_pdf_under in Hin.
Qed.

(** X3: when the engine is found and exits with a non-zero status, a
    call that reached the engine step raises the [RuntimeError] whose
    message is "Ghostscript compression failed: " followed by the text of
    the [CalledProcessError]. *)
Theorem compress_engine_failure e (input_path output_path quality : string)
    st (d : string) st1 f (pages : list Page) (detail : string) :
  quality ∈ ["low"; "medium"; "high"] →
  mkdtemp e st = (Ok d, st1) →
  files st !! input_path = Some f →
  f_doc f = Some pages →
  write_outcome_at e (os_path.join d "temp.pdf") = WriteOk →
  gs_on_path e = true →
  gs_failure e = Some detail →
  (compress_pdf e input_path output_path quality st).1
  = Raise (RuntimeError ("Ghostscript compression failed: " +:+ detail)).
Proof.
  intros [s Hs]%quality_settings_Some Hmk Hf Hdoc Hw Hgs Hfail.
  rewrite (compress_pdf_reaches_engine _ _ _ _ _ _ _ _ _ _ Hs Hmk Hf Hdoc Hw).
  unfold try_finally. rewrite run_ghostscript_found by done. rewrite Hfail.
  unfold rmtree. unfold_monad. reflexivity.
Qed.

(** X4: when the engine is found and exits with status 0, a call that
    reached the engine step returns normally, and the output path, if it
    is outside the scratch directory, holds what the engine wrote there
    (or what it held before, if the engine wrote nothing). *)
Theorem compress_engine_success e (input_path output_path quality : string)
    st (d : string) st1 f (pages : list Page) :
  quality ∈ ["low"; "medium"; "high"] →
  mkdtemp e st = (Ok d, st1) →
  files st !! input_path = Some f →
  f_doc f = Some pages →
  write_outcome_at e (os_path.join d "temp.pdf") = WriteOk →
  gs_on_path e = true →
  gs_failure e = None →
  in_tree d output_path = false →
  (compress_pdf e input_path output_path quality st).1 = Ok tt
  ∧ files (compress_pdf e input_path output_path quality st).2 !! output_path
    = match gs_output e with
      | Some out => Some out
      | None => files st !! output_path
      end.
Proof.
  intros [s Hs]%quality_settings_Some Hmk Hf Hdoc Hw Hgs Hfail Hout.
  rewrite (compress_pdf_reaches_engine _ _ _ _ _ _ _ _ _ _ Hs Hmk Hf Hdoc Hw).
  apply mkdtemp_Ok in Hmk as (_ & _ & _ & ->).
  unfold try_finally. rewrite run_ghostscript_found by done. rewrite Hfail.
  unfold rmtree. unfold_monad. simpl. split; [done|].
  rewrite (lookup_filter_out_of_tree output_path d) by done.
  assert (os_path.join d "temp.pdf" ≠ output_path) as Hne.
  { intros Heq. rewrite <- Heq in Hout.
    by rewrite (in_tree_under _ _ (temp_pdf_under d)) in Hout. }
  destruct (gs_output e) as [out|]; simpl.
  - by rewrite lookup_insert_eq.
  - by rewrite !lookup_insert_ne.
Qed.

Lemma preset_of_quality_settings (quality : string) (s : settings) :
  quality_settings !! quality = Some s →
  preset_of_quality quality = Some (_get_gs_preset (s_dpi s) (s_quality s)).
Proof.
  unfold quality_settings, preset_of_quality.
  repeat case_bool_decide; subst;
    rewrite ?lookup_insert_eq, ?lookup_insert_ne, ?lookup_empty by done;
    by intros [= <-].
Qed.

Lemma log_only_run_ghostscript_cmd (Q : event → Prop) e
    (input_path output_path : string) (dpi quality : Z) :
  Q (EvWhich "gs") →
  Q (EvSpawn (gs_command (_get_gs_preset dpi quality) output_path input_path)) →
  preserves (log_only Q) (_run_ghostscript e input_path output_path dpi quality).
Proof.
  intros Hw Hs st. destruct (gs_on_path e) eqn:Hgs.
  - rewrite run_ghostscript_found by done. simpl.
    eexists [_; _]. split; [by destruct (gs_output e)|].
    by repeat constructor.
  - rewrite run_ghostscript_missing by done.
    exists [EvWhich "gs"]. split; [done|]. by repeat constructor.
Qed.

(** X5: with a valid quality name, every engine process [compress_pdf]
    spawns is run with the argument vector [gs -sFONTPATH=/tmp
    -sDEVICE=pdfwrite -dCompatibilityLevel=1.4 -dPDFSETTINGS=/<preset>
    -dNOPAUSE -dQUIET -dBATCH -sOutputFile=<output_path> <scratch>/temp.pdf],
    where the scratch directory is one the call created and the preset is
    "screen" for low, "ebook" for medium and "printer" for high; the
    preset "prepress" is never used. *)
Theorem compress_spawns_preset e (input_path output_path quality : string)
    st (r : result unit) st' :
  quality ∈ ["low"; "medium"; "high"] →
  compress_pdf e input_path output_path quality st = (r, st') →
  ∃ new, events_since st st' new
    ∧ ∀ cmd, EvSpawn cmd ∈ new →
        ∃ d preset,
          EvMkdtemp d ∈ new
          ∧ preset_of_quality quality = Some preset
          ∧ preset ∈ ["screen"; "ebook"; "printer"]
          ∧ cmd = gs_command preset output_path (os_path.join d "temp.pdf").
Proof.
  intros Hq Hrun. pose proof Hq as [s Hs]%quality_settings_Some.
  unfold compress_pdf in Hrun. rewrite Hs in Hrun.
  apply bind_inv in Hrun as [(d & st1 & Hmk & Hrun)|(ex & Hmk & ->)].
  2:{ apply mkdtemp_Raise in Hmk as ->. exists []. split; [done|].
      by intros cmd ?%elem_of_nil. }
  apply mkdtemp_Ok in Hmk as (_ & _ & _ & Hst1).
  apply try_finally_inv in Hrun as (r2 & st2 & Hbody & Hfin).
  set (Q := λ ev, ∀ cmd, ev = EvSpawn cmd →
                  cmd = gs_command (_get_gs_preset (s_dpi s) (s_quality s))
                          output_path (os_path.join d "temp.pdf")).
  assert (log_only Q st1 st2) as (new2 & Hnew2 & HQ).
  { assert (preserves (log_only Q)
              (f ← open_rb input_path;
               pdf ← PdfReader input_path f;
               write_pdf e (os_path.join d "temp.pdf") (foldl add_page [] pdf);;
               _run_ghostscript e (os_path.join d "temp.pdf") output_path
                 (s_dpi s) (s_quality s))) as H.
    { apply preserves_bind; [apply _ | by apply log_only_open_rb |]. intros f.
      apply preserves_bind; [apply _ | log_only_calls | intros pdf].
      apply preserves_bind; [apply _ | by apply log_only_write_pdf |].
      intros _. apply log_only_run_ghostscript_cmd; [done|].
      by intros cmd [= <-]. }
    specialize (H st1). cbv zeta in Hbody. by rewrite Hbody in H. }
  assert (log st' = EvRmtree d :: log st2) as Hlog'.
  { assert (st' = set_dirs (filter (λ p, in_tree d p = false))
                    (set_files (filter (λ kv, in_tree d kv.1 = false))
                       (add_log (EvRmtree d) st2))) as ->; [|done].
    destruct Hfin as [[Hfin _]|(? & Hfin & _)]; by injection Hfin. }
  exists (EvRmtree d :: new2 ++ [EvMkdtemp d]). unfold events_since in *.
  split. { rewrite Hlog', Hnew2, Hst1. simpl. by rewrite <- (assoc_L (++)). }
  intros cmd Hin.
  apply elem_of_cons in Hin as [?|Hin]; [done|].
  apply elem_of_app in Hin as [Hin|Hin];
    [|by apply list_elem_of_singleton in Hin].
  rewrite Forall_forall in HQ. specialize (HQ _ Hin cmd eq_refl).
  exists d, (_get_gs_preset (s_dpi s) (s_quality s)). split_and!.
  - apply elem_of_cons. right. apply elem_of_app. right.
    by apply list_elem_of_singleton.
  - by apply preset_of_quality_settings.
  - clear -Hq Hs. unfold quality_settings in Hs.
    repeat (apply elem_of_cons in Hq as [->|Hq]);
      [| | |by apply elem_of_nil in Hq];
      rewrite ?lookup_insert_eq, ?lookup_insert_ne in Hs by done;
      injection Hs as <-; set_solver.
  - done.
Qed.

(** ** The parts are cut greedily *)

Lemma part_estimate_app_list e (a b : list Page) :
  part_estimate e (a ++ b) = part_estimate e a + part_estimate e b.
Proof. induction a as [|q a IH]; simpl; lia. Qed.

Lemma greedy_cons e (max_size_bytes : Z) (doc : list Page) (docs : list (list Page)) :
  (∀ page rest, docs !! 0%nat = Some (page :: rest) →
                max_size_bytes < part_estimate e doc + estimate e page) →
  greedy e max_size_bytes docs →
  greedy e max_size_bytes (doc :: docs).
Proof.
  intros Hhead Htail [|i] d page rest Hd Hnext; simpl in *.
  - injection Hd as <-. by apply (Hhead page rest).
  - by apply (Htail i d page rest).
Qed.

Lemma greedy_app_l e (max_size_bytes : Z) (docs more : list (list Page)) :
  greedy e max_size_bytes (docs ++ more) → greedy e max_size_bytes docs.
Proof.
  intros H i d page rest Hd Hnext. apply (H i d page rest).
  - by apply lookup_app_l_Some.
  - by apply lookup_app_l_Some.
Qed.

Lemma split_loop_Ok_greedy e (max_size_bytes : Z) (output_prefix : string)
    (pages : list Page) (v : split_vars Page) st (v' : split_vars Page) st' :
  split_loop_given e max_size_bytes output_prefix pages v st = (Ok v', st') →
  split_inv e max_size_bytes v →
  ∃ sealed : list (list Page),
    parts v' = parts v ++ part_paths output_prefix (current_part v) (length sealed)
    ∧ current_part v' = current_part v + Z.of_nat (length sealed)
    ∧ files st'
      = write_parts e
          (zip (part_paths output_prefix (current_part v) (length sealed)) sealed)
          (files st)
    ∧ concat sealed ++ current_writer v' = current_writer v ++ pages
    ∧ Forall (λ part, part ≠ []) sealed
    ∧ greedy e max_size_bytes (sealed ++ [current_writer v'])
    ∧ (∃ tail, (sealed ++ [current_writer v']) !! 0%nat
               = Some (current_writer v ++ tail)).
Proof.
  revert v st. induction pages as [|page rest IH]; intros v st Hrun Hinv.
  - injection Hrun as <- <-. exists []. simpl.
    rewrite !app_nil_r, Z.add_0_r. split_and!; [done.. | |].
    + unfold greedy. by intros [|i] d page rest Hd Hnext.
    + exists []. by rewrite app_nil_r.
  - simpl in Hrun. apply bind_Ok_inv in Hrun as (v1 & st1 & Hstep & Hrun).
    apply split_step_Ok in Hstep.
    pose proof (split_inv_step e max_size_bytes page v Hinv) as Hinv1.
    destruct (seals e max_size_bytes page v) eqn:Hseals.
    + destruct Hstep as [-> Hfiles]. destruct Hinv1 as [Hok Hne].
      apply IH in Hrun
        as (sealed & Hparts & Hcur & Hfs & Hcat & Hnes & Hgreedy & tail & Hhead);
        [|apply split_inv_fresh].
      simpl in *. exists (current_writer v :: sealed). simpl length.
      rewrite part_paths_S. simpl.
      rewrite Hparts, Hcur, Hfs, Hfiles, <- !(assoc_L (++)), Hcat.
      split_and!; [done | lia | done | done | by constructor | |].
      * apply greedy_cons; [|done]. intros page' rest' Hnext.
        rewrite Hhead in Hnext. injection Hnext as <- _.
        unfold seals in Hseals. apply andb_true_iff in Hseals as [Hover _].
        destruct Hinv as [Hsize _]. rewrite <- Hsize. lia.
      * exists []. by rewrite app_nil_r.
    + destruct Hstep as [-> Hfiles].
      apply IH in Hrun
        as (sealed & Hparts & Hcur & Hfs & Hcat & Hnes & Hgreedy & tail & Hhead);
        [|done].
      simpl in *. exists sealed.
      rewrite Hparts, Hcur, Hfs, Hfiles, Hcat, <- (assoc_L (++)).
      split_and!; try done.
      exists (page :: tail). by rewrite Hhead, <- (assoc_L (++)).
Qed.

Lemma split_finish_greedy e (max_size_bytes : Z) (prefix : string)
    (pages : list Page) st (v : split_vars Page) st1
    (paths : list string) st' :
  split_loop_given e max_size_bytes prefix pages (mkVars [] 1 [] 0) st = (Ok v, st1) →
  (if Z.of_nat (length (current_writer v)) >? 0 then
     write_pdf e (part_path prefix (current_part v)) (current_writer v);;
     ret (parts v ++ [part_path prefix (current_part v)])
   else ret (parts v)) st1 = (Ok paths, st') →
  ∃ docs : list (list Page),
    paths = part_paths prefix 1 (length docs)
    ∧ Forall2 (λ path doc, files st' !! path = Some (pdf_file e doc)) paths docs
    ∧ concat docs = pages
    ∧ Forall (λ part, part ≠ []) docs
    ∧ greedy e max_size_bytes docs.
Proof.
  intros Hloop Hrun.
  apply split_loop_Ok_greedy in Hloop
    as (sealed & Hparts & Hcur & Hfs & Hcat & Hnes & Hgreedy & _);
    [|split; [done|by intros []]].
  simpl in *.
  assert (∀ docs,
            files st' = write_parts e (zip paths docs) (files st) →
            paths = part_paths prefix 1 (length docs) →
            Forall2 (λ path doc, files st' !! path = Some (pdf_file e doc))
              paths docs) as Hread.
  { intros docs -> Hpaths. apply write_parts_lookup.
    - by rewrite Hpaths, part_paths_length.
    - rewrite Hpaths. apply part_paths_NoDup. }
  destruct (Z.gtb_spec (Z.of_nat (length (current_writer v))) 0) as [Hne|Hempty].
  - apply bind_Ok_inv in Hrun as ([] & st2 & Hw & Hret).
    injection Hret as <- <-. apply write_pdf_Ok_inv in Hw as [Hw _].
    assert (current_writer v ≠ []) as Hne' by (by destruct (current_writer v)).
    exists (sealed ++ [current_writer v]).
    assert (parts v ++ [part_path prefix (current_part v)]
            = part_paths prefix 1 (length (sealed ++ [current_writer v])))
      as Hpaths.
    { by rewrite length_app, Nat.add_1_r, part_paths_snoc, Hparts, Hcur. }
    split_and!; [done | | | |done].
    + apply Hread; [|done]. rewrite Hparts.
      rewrite zip_with_app by (by rewrite part_paths_length).
      rewrite write_parts_app. simpl. by rewrite Hw, Hfs.
    + rewrite concat_app. simpl. by rewrite app_nil_r.
    + apply Forall_app. split; [done|]. by apply Forall_singleton.
  - injection Hrun as <- <-.
    destruct (current_writer v); [|simpl in Hempty; lia].
    rewrite app_nil_r in Hcat. exists sealed.
    split_and!; [done | | done | done | by apply greedy_app_l in Hgreedy].
    apply Hread; [|done]. by rewrite Hparts, Hfs.
Qed.

Lemma length_concat_nonempty (docs : list (list Page)) :
  Forall (λ part, part ≠ []) docs → (length docs ≤ length (concat docs))%nat.
Proof.
  induction 1 as [|doc docs Hne _ IH]; simpl; [done|].
  rewrite length_app. destruct doc; [done|]. simpl. lia.
Qed.

(** X6: past the short-circuit, the parts [split_pdf] writes are cut
    greedily: no part file is empty, so there are at most as many parts
    as pages, and every part but the last is followed by a page whose
    estimate, added to the part's, exceeds the threshold. *)
Theorem split_parts_greedy e (input_path : string) (max_size_mb : Z)
    (output_prefix : option string) st f (pages : list Page)
    (paths : list string) st' :
  files st !! input_path = Some f →
  f_doc f = Some pages →
  max_size_mb * 1024 * 1024 < Z.of_N (f_size f) →
  split_pdf e input_path max_size_mb output_prefix st = (Ok paths, st') →
  (length paths ≤ length pages)%nat
  ∧ ∃ docs : list (list Page),
      Forall2 (λ path doc, files st' !! path = Some (pdf_file e doc)) paths docs
      ∧ Forall (λ doc, doc ≠ []) docs
      ∧ ∀ (i : nat) (doc : list Page) (page : Page) (rest : list Page),
          docs !! i = Some doc → docs !! S i = Some (page :: rest) →
          max_size_mb * 1024 * 1024 < part_estimate e doc + estimate e page.
Proof.
  intros Hf Hdoc Hbig Hrun.
  destruct (split_pdf_Ok_inv _ _ _ _ _ _ _ _ _ Hf Hdoc Hbig Hrun)
    as (v & st1 & Hloop & Hfin).
  apply split_loop_fetched in Hloop as (fetched & Hlen & Hgiven).
  destruct (split_finish_greedy _ _ _ _ _ _ _ _ _ Hgiven Hfin)
    as (docs & Hpaths & Hread & Hcat & Hnes & Hgreedy).
  split.
  - rewrite Hpaths, part_paths_length, <- Hlen, <- Hcat.
    by apply length_concat_nonempty.
  - by exists docs.
Qed.

(** X7: past the short-circuit, a document with at least one page whose
    page estimates together are within the threshold is written as one
    part, [<prefix>_part1.pdf], holding all the pages. *)
Theorem split_single_part e (input_path : string) (max_size_mb : Z)
    (output_prefix : option string) st f (pages : list Page)
    (paths : list string) st' :
  files st !! input_path = Some f →
  f_doc f = Some pages →
  max_size_mb * 1024 * 1024 < Z.of_N (f_size f) →
  split_pdf e input_path max_size_mb output_prefix st = (Ok paths, st') →
  pages ≠ [] →
  part_estimate e pages ≤ max_size_mb * 1024 * 1024 →
  paths = [default (default_prefix input_path) output_prefix +:+ "_part1.pdf"]
  ∧ files st' !! (default (default_prefix input_path) output_prefix
                  +:+ "_part1.pdf")
    = Some (pdf_file e pages).
Proof.
  intros Hf Hdoc Hbig Hrun Hne Hfits.
  destruct (split_pdf_Ok_inv _ _ _ _ _ _ _ _ _ Hf Hdoc Hbig Hrun)
    as (v & st1 & Hloop & Hfin).
  apply split_loop_fits in Hloop as (Hparts & Hcur & Hw & Hfs);
    [|reflexivity|done].
  simpl in *. rewrite Hparts, Hcur, Hw in Hfin.
  destruct pages as [|page rest]; [done|]. simpl in Hfin.
  apply bind_Ok_inv in Hfin as ([] & st2 & Hwrite & Hret).
  injection Hret as <- <-. apply write_pdf_Ok_inv in Hwrite as [Hwrite _].
  split; [done|]. rewrite Hwrite. apply lookup_insert_eq.
Qed.

(** ** What a call can raise, and what it prints on the error stream *)

Section RaisesOnly.

Context (P : exn → Prop).

Lemma raises_only_ret {A} (a : A) : raises_only (Page := Page) P (ret a).
Proof. by intros st ex st' [=]. Qed.

Lemma raises_only_raise {A} (ex : exn) :
  P ex → raises_only (Page := Page) (A := A) P (raise ex).
Proof. by intros H st ex' st' [= <- _]. Qed.

Lemma raises_only_get : raises_only (Page := Page) P get.
Proof. by intros st ex st' [=]. Qed.

Lemma raises_only_modify (g : state Page → state Page) :
  raises_only P (modify g).
Proof. by intros st ex st' [=]. Qed.

Lemma raises_only_bind {A B} (m : M Page A) (k : A → M Page B) :
  raises_only P m → (∀ a, raises_only P (k a)) → raises_only P (m ≫= k).
Proof.
  intros Hm Hk st ex st' [(a & st1 & _ & Hrun)|(ex' & Hrun & [= ->])]%bind_inv.
  - by apply (Hk a st1 ex st').
  - by apply (Hm st ex' st').
Qed.

Lemma raises_only_try_finally {A} (body : M Page A) (fin : M Page unit) :
  raises_only P body → raises_only P fin → raises_only P (try_finally body fin).
Proof.
  intros Hb Hf st ex st' (r1 & st1 & Hbody & Hfin)%try_finally_inv.
  destruct Hfin as [[_ <-]|(ex' & Hfin & [= ->])].
  - by apply (Hb st ex st1).
  - by apply (Hf st1 ex' st').
Qed.

Lemma raises_only_when (b : bool) (m : M Page unit) :
  raises_only P m → raises_only P (when b m).
Proof. destruct b; [done | intros _; apply raises_only_ret]. Qed.

Lemma raises_only_for_each {A} (xs : list A) (body : A → M Page unit) :
  (∀ x, raises_only P (body x)) → raises_only P (for_each xs body).
Proof.
  intros Hb. induction xs as [|x xs IH]; simpl.
  - apply raises_only_ret.
  - apply raises_only_bind; [apply Hb | intros _; exact IH].
Qed.

End RaisesOnly.

Ltac raises_calls :=
  unfold_calls; unfold emit, print;
  repeat first
    [ apply raises_only_ret
    | apply raises_only_raise; reflexivity
    | apply raises_only_get
    | apply raises_only_modify
    | apply raises_only_bind; [|intros ?]
    | apply raises_only_try_finally
    | apply raises_only_when
    | progress cbv zeta
    | match goal with
      | |- raises_only _ (match ?x with _ => _ end) => destruct x
      end ].

#[local] Abbreviation Exception := (λ ex, is_Exception ex = true).

Lemma raises_Exception_getsize e (p : string) :
  raises_only Exception (os_path_getsize e p).
Proof. raises_calls. Qed.

Lemma raises_Exception_write_pdf e (p : string) (writer : list Page) :
  raises_only Exception (write_pdf e p writer).
Proof. raises_calls. Qed.

Lemma raises_Exception_estimate e (page : Page) :
  raises_only Exception (estimate_page_size e page).
Proof. unfold estimate_page_size. raises_calls. Qed.

Lemma raises_Exception_run_ghostscript e (input_path output_path : string)
    (dpi quality : Z) :
  raises_only Exception (_run_ghostscript e input_path output_path dpi quality).
Proof. unfold _run_ghostscript. raises_calls. Qed.

Lemma raises_Exception_compress_pdf e (input_path output_path quality : string) :
  raises_only Exception (compress_pdf e input_path output_path quality).
Proof.
  unfold compress_pdf.
  destruct (quality_settings !! quality); [|by apply raises_only_raise].
  apply raises_only_bind; [raises_calls | intros d].
  apply raises_only_try_finally; [|raises_calls].
  apply raises_only_bind; [raises_calls | intros f].
  apply raises_only_bind; [raises_calls | intros pdf]. cbv zeta.
  apply raises_only_bind; [apply raises_Exception_write_pdf | intros _].
  apply raises_Exception_run_ghostscript.
Qed.

Lemma raises_Exception_fetch_page e (input_path : string) (opened : nat)
    (page : Page) :
  raises_only Exception (fetch_page e input_path opened page).
Proof.
  intros st ex st'. unfold fetch_page. unfold_monad. simpl.
  destruct (truncated_in _ _); [destruct (stale_read e page)|];
    by intros [= <- _].
Qed.

Lemma raises_Exception_split_loop e (max_size_bytes : Z)
    (output_prefix input_path : string) (opened : nat)
    (pages : list Page) (v : split_vars Page) :
  raises_only Exception
    (split_loop e max_size_bytes output_prefix input_path opened pages v).
Proof.
  revert v. induction pages as [|page rest IH]; intros v; simpl.
  - apply raises_only_ret.
  - apply raises_only_bind; [apply raises_Exception_fetch_page | intros page'].
    apply raises_only_bind; [|apply IH]. unfold split_step.
    apply raises_only_bind; [apply raises_Exception_estimate | intros n].
    apply raises_only_bind; [|intros ?; apply raises_only_ret].
    destruct (_ && _); [|apply raises_only_ret].
    apply raises_only_bind; [apply raises_Exception_write_pdf|].
    intros _. apply raises_only_ret.
Qed.

Lemma raises_Exception_split_pdf e (input_path : string) (max_size_mb : Z)
    (output_prefix : option string) :
  raises_only Exception (split_pdf e input_path max_size_mb output_prefix).
Proof.
  unfold split_pdf. cbv zeta.
  apply raises_only_bind; [raises_calls | intros f].
  apply raises_only_bind; [apply raises_Exception_getsize | intros size].
  destruct (_ <=? _); [raises_calls|].
  apply raises_only_bind; [raises_calls | intros pdf].
  apply raises_only_bind; [by intros ? ? ? [=] | intros opened].
  apply raises_only_bind; [apply raises_Exception_split_loop | intros v].
  destruct (_ >? _); [|apply raises_only_ret].
  apply raises_only_bind; [apply raises_Exception_write_pdf|].
  intros _. apply raises_only_ret.
Qed.

#[local] Instance same_stderr_preorder : PreOrder (same_stderr (Page := Page)).
Proof.
  split.
  - by intros st.
  - intros st1 st2 st3 H1 H2. unfold same_stderr in *. by rewrite H2.
Qed.

Lemma stderr_modify (g : state Page → state Page) :
  (∀ st, stderr (g st) = stderr st) → preserves same_stderr (modify g).
Proof. intros H st. apply H. Qed.

Ltac stderr_calls :=
  unfold_calls; unfold emit, print;
  repeat first
    [ progress preserves_structure
    | apply stderr_modify; intros ?; reflexivity ].

Lemma stderr_getsize e (p : string) :
  preserves same_stderr (os_path_getsize e p).
Proof. stderr_calls. Qed.

Lemma stderr_write_pdf e (p : string) (writer : list Page) :
  preserves same_stderr (write_pdf e p writer).
Proof. stderr_calls. Qed.

Lemma stderr_compress_pdf e (input_path output_path quality : string) :
  preserves same_stderr (compress_pdf e input_path output_path quality).
Proof.
  unfold compress_pdf.
  destruct (quality_settings !! quality); [|apply preserves_raise, _].
  apply preserves_bind; [apply _ | stderr_calls | intros d].
  apply preserves_try_finally; [apply _ | | stderr_calls].
  apply preserves_bind; [apply _ | stderr_calls | intros f].
  apply preserves_bind; [apply _ | stderr_calls | intros pdf]. cbv zeta.
  apply preserves_bind; [apply _ | apply stderr_write_pdf | intros _].
  unfold _run_ghostscript. stderr_calls.
Qed.

Lemma stderr_split_loop e (max_size_bytes : Z) (output_prefix input_path : string)
    (opened : nat) (pages : list Page) (v : split_vars Page) :
  preserves same_stderr
    (split_loop e max_size_bytes output_prefix input_path opened pages v).
Proof.
  revert v. induction pages as [|page rest IH]; intros v; simpl.
  - apply preserves_ret, _.
  - apply preserves_bind; [apply _ | apply preserves_fetch_page, _ |].
    intros page'.
    apply preserves_bind; [apply _ | | apply IH]. unfold split_step.
    apply preserves_bind; [apply _ | | intros n].
    { unfold estimate_page_size. stderr_calls. }
    apply preserves_bind; [apply _ | | intros ?; apply preserves_ret, _].
    destruct (_ && _); [|apply preserves_ret, _].
    apply preserves_bind; [apply _ | apply stderr_write_pdf |].
    intros _. apply preserves_ret, _.
Qed.

Lemma stderr_split_pdf e (input_path : string) (max_size_mb : Z)
    (output_prefix : option string) :
  preserves same_stderr (split_pdf e input_path max_size_mb output_prefix).
Proof.
  unfold split_pdf. cbv zeta.
  apply preserves_bind; [apply _ | stderr_calls | intros f].
  apply preserves_bind; [apply _ | apply stderr_getsize | intros size].
  destruct (_ <=? _); [stderr_calls|].
  apply preserves_bind; [apply _ | stderr_calls | intros pdf].
  apply preserves_bind; [apply _ | apply preserves_log_mark, _ | intros opened].
  apply preserves_bind; [apply _ | apply stderr_split_loop | intros v].
  destruct (_ >? _); [|apply preserves_ret, _].
  apply preserves_bind; [apply _ | apply stderr_write_pdf |].
  intros _. apply preserves_ret, _.
Qed.

(** ** How [main] ends *)

(** A block that raises only [Exception]s and prints nothing on the error
    stream, under the handler of [main]. *)
Lemma handled_outcome e (body : M Page unit) st (r : result unit) st' :
  raises_only (λ ex, is_Exception ex = true) body →
  preserves same_stderr body →
  try_except body
    (λ ex, if is_Exception ex
           then Some (print_err ("Error: " +:+ exn_str e ex);; sys_exit 1)
           else None) st = (r, st') →
  (r = Ok tt ∧ stderr st' = stderr st)
  ∨ (r = Raise (SystemExit 1)
     ∧ ∃ msg, stderr st' = ("Error: " +:+ msg) :: stderr st).
Proof.
  intros Hraise Hstderr. unfold try_except.
  specialize (Hraise st). specialize (Hstderr st). unfold same_stderr in Hstderr.
  destruct (body st) as [[[]|ex] st1]; simpl in *.
  - intros [= <- <-]. by left.
  - rewrite (Hraise ex st1 eq_refl). unfold_monad. simpl.
    intros [= <- <-]. right. split; [done|]. exists (exn_str e ex). simpl.
    by rewrite Hstderr.
Qed.

(** X8: [main] ends in one of two ways, whatever the arguments and the
    world: it returns, having printed nothing on the error stream (exit
    status 0), or it leaves with [sys.exit(1)], having printed exactly one
    line on the error stream, which starts with "Error: ".  No exception
    of the compressor or the splitter escapes it. *)
Theorem main_outcome e (a : args) st (r : result unit) st' :
  main e a st = (r, st') →
  (r = Ok tt ∧ stderr st' = stderr st)
  ∨ (r = Raise (SystemExit 1)
     ∧ ∃ msg, stderr st' = ("Error: " +:+ msg) :: stderr st).
Proof.
  unfold main. rewrite (bind_run_Ok _ _ _ _ _ (exists_run _ _)).
  destruct (path_exists st (a_input a)); cbv beta iota delta [negb].
  2:{ unfold_monad. simpl. intros [= <- <-]. right. split; [done|].
      by exists ("Input file '" +:+ a_input a +:+ "' not found."). }
  destruct (truthy_int (a_split a)).
  - intros Hrun. apply handled_outcome in Hrun as [H|H]; [by left | by right | |].
    + apply raises_only_bind; [raises_calls | intros _].
      apply raises_only_bind; [apply raises_Exception_split_pdf | intros parts].
      apply raises_only_when.
      apply raises_only_bind; [raises_calls | intros _].
      apply raises_only_for_each. intros part.
      apply raises_only_bind; [apply raises_Exception_getsize | intros size].
      raises_calls.
    + apply preserves_bind; [apply _ | stderr_calls | intros _].
      apply preserves_bind; [apply _ | apply stderr_split_pdf | intros parts].
      apply preserves_when; [apply _|].
      apply preserves_bind; [apply _ | stderr_calls | intros _].
      apply preserves_for_each; [apply _|]. intros part.
      apply preserves_bind; [apply _ | apply stderr_getsize | intros size].
      stderr_calls.
  - destruct (truthy_str (a_output a)); cbv beta iota delta [negb].
    2:{ unfold try_except. unfold_monad. simpl. intros [= <- <-].
        right. split; [done|].
        by exists "Output path required for compression.". }
    intros Hrun. apply handled_outcome in Hrun as [H|H]; [by left | by right | |].
    + apply raises_only_bind; [|intros original_size].
      { destruct (a_verbose a); [|apply raises_only_ret].
        apply raises_only_bind; [raises_calls | intros _].
        apply raises_only_bind; [apply raises_Exception_getsize | intros size].
        raises_calls. }
      apply raises_only_bind; [apply raises_Exception_compress_pdf | intros _].
      apply raises_only_when.
      apply raises_only_bind; [apply raises_Exception_getsize | intros size].
      raises_calls.
    + apply preserves_bind; [apply _ | | intros original_size].
      { destruct (a_verbose a); [|apply preserves_ret, _].
        apply preserves_bind; [apply _ | stderr_calls | intros _].
        apply preserves_bind; [apply _ | apply stderr_getsize | intros size].
        stderr_calls. }
      apply preserves_bind; [apply _ | apply stderr_compress_pdf | intros _].
      apply preserves_when; [apply _|].
      apply preserves_bind; [apply _ | apply stderr_getsize | intros size].
      stderr_calls.
Qed.

(** X9: when the input path names nothing, [main] prints "Error: Input
    file '<path>' not found." on the error stream and leaves with status
    1; its only system call is the existence test, so nothing is read or
    written. *)
Theorem main_missing_input e (a : args) st :
  path_exists st (a_input a) = false →
  main e a st
  = (Raise (SystemExit 1),
     add_stderr ("Error: Input file '" +:+ a_input a +:+ "' not found.")
       (add_log (EvStat (a_input a)) st)).
Proof.
  intros Hex. unfold main.
  rewrite (bind_run_Ok _ _ _ _ _ (exists_run _ _)), Hex. simpl.
  unfold_monad. reflexivity.
Qed.

(** ** The default prefix *)

Lemma string_app_cons (c : ascii) (s t : string) :
  String c s +:+ t = String c (s +:+ t).
Proof. reflexivity. Qed.

Lemma string_app_assoc (a b c : string) : (a +:+ b) +:+ c = a +:+ (b +:+ c).
Proof.
  induction a as [|x a IH]; [done|].
  by rewrite !string_app_cons, IH.
Qed.

Lemma no_sep_app (a b : string) : no_sep (a +:+ b) = no_sep a && no_sep b.
Proof.
  induction a as [|x a IH]; [done|].
  rewrite string_app_cons. unfold no_sep in *. simpl.
  by rewrite IH, andb_assoc.
Qed.

Lemma no_sep_pretty_N_go (x : N) (s : string) :
  no_sep s = true → no_sep (pretty_N_go x s) = true.
Proof.
  revert s. induction (N.lt_wf_0 x) as [x _ IH]; intros s Hs.
  assert (x = 0 ∨ 0 < x)%N as [->|?] by lia.
  - by rewrite pretty_N_go_0.
  - rewrite pretty_N_go_step by done. apply IH.
    { by apply N.div_lt. }
    unfold no_sep in *. simpl. rewrite Hs.
    unfold pretty_N_char. by repeat case_match.
Qed.

Lemma no_sep_pretty_Z (n : Z) : no_sep (pretty n) = true.
Proof.
  assert (∀ p : positive, no_sep (pretty p) = true) as Hpos.
  { intros p. unfold pretty, pretty_positive, pretty, pretty_N.
    case_decide; [done|]. by apply no_sep_pretty_N_go. }
  destruct n as [|p|p]; unfold pretty, pretty_Z; [done | apply Hpos |].
  rewrite no_sep_app. by rewrite Hpos.
Qed.

Lemma split_no_sep (t : string) :
  no_sep t = true → os_path.split_at_last_sep t = ("", t).
Proof.
  induction t as [|c t IH]; [done|].
  unfold no_sep. simpl. intros [Hc Ht]%andb_true_iff.
  rewrite (IH Ht). by destruct (os_path.is_sep c).
Qed.

Lemma split_app_no_sep (s t : string) :
  no_sep t = true →
  os_path.split_at_last_sep (s +:+ t)
  = ((os_path.split_at_last_sep s).1, (os_path.split_at_last_sep s).2 +:+ t).
Proof.
  intros Ht. induction s as [|c s IH].
  - by rewrite split_no_sep.
  - rewrite string_app_cons. simpl. rewrite IH.
    destruct (os_path.split_at_last_sep s) as [h tl]. simpl.
    destruct h; [|done]. by destruct (os_path.is_sep c).
Qed.

Lemma split_snd_no_sep (s : string) :
  no_sep (os_path.split_at_last_sep s).2 = true.
Proof.
  induction s as [|c s IH]; [done|]. simpl.
  destruct (os_path.split_at_last_sep s) as [h tl]. simpl in *.
  destruct h; [|done].
  destruct (os_path.is_sep c) eqn:Hc; [done|].
  unfold no_sep in *. simpl. by rewrite Hc, IH.
Qed.

Lemma split_ends_with_sep (s : string) :
  os_path.ends_with_sep s = true →
  ∃ h, os_path.split_at_last_sep s = (h, "") ∧ h ≠ "".
Proof.
  induction s as [|c s IH]; [done|]. destruct s as [|c' s].
  - simpl. intros ->. by eexists.
  - intros Hs. destruct (IH Hs) as (h & Hsplit & Hh).
    change (os_path.split_at_last_sep (String c (String c' s)))
      with (let '(h, t) := os_path.split_at_last_sep (String c' s) in
            match h with
            | EmptyString =>
                if os_path.is_sep c then (String c EmptyString, t)
                else (EmptyString, String c t)
            | _ => (String c h, t)
            end).
    rewrite Hsplit. destruct h; [done|]. by eexists.
Qed.

Lemma ends_with_sep_app (d : string) : os_path.ends_with_sep (d +:+ "/") = true.
Proof.
  induction d as [|c d IH]; [done|].
  rewrite string_app_cons. destruct d; [done|]. exact IH.
Qed.

(** The file name of a path made by [os.path.join] and a suffix without
    separators. *)
Lemma basename_join_app (d root suffix : string) :
  no_sep root = true → no_sep suffix = true →
  os_path.basename (os_path.join d root +:+ suffix) = root +:+ suffix.
Proof.
  intros Hroot Hsuffix. unfold os_path.basename, os_path.join.
  assert (os_path.starts_with_sep root = false) as ->.
  { destruct root as [|c root]; [done|]. unfold no_sep in Hroot. simpl in *.
    apply andb_true_iff in Hroot as [Hc _]. by destruct (os_path.is_sep c). }
  assert (no_sep (root +:+ suffix) = true) as Hrs
    by (by rewrite no_sep_app, Hroot, Hsuffix).
  case_bool_decide as Hd; simpl.
  - subst d. simpl. by rewrite split_no_sep.
  - destruct (os_path.ends_with_sep d) eqn:Hends.
    + rewrite string_app_assoc, split_app_no_sep by done. simpl.
      by destruct (split_ends_with_sep d Hends) as (h & -> & _).
    + rewrite <- (string_app_assoc d "/" root), string_app_assoc.
      rewrite split_app_no_sep by done. simpl.
      by destruct (split_ends_with_sep _ (ends_with_sep_app d)) as (h & -> & _).
Qed.

Lemma split_at_last_dot_Some (s a x : string) :
  os_path.split_at_last_dot s = Some (a, x) →
  s = a +:+ x ∧ ∃ x', x = String "." x'.
Proof.
  revert a x. induction s as [|c s IH]; intros a x; [done|]. simpl.
  destruct (os_path.split_at_last_dot s) as [[a' x']|].
  - intros [= <- <-]. destruct (IH a' x' eq_refl) as [-> Hdot].
    by rewrite string_app_cons.
  - destruct (os_path.is_dot c) eqn:Hc; [|done]. intros [= <- <-].
    split; [done|]. apply bool_decide_eq_true in Hc as ->. by eexists.
Qed.

(** The root [os.path.splitext] gives for a file name is the name itself,
    or what comes before an extension that starts with a dot. *)
Lemma splitext_root (b : string) :
  no_sep b = true →
  (os_path.splitext b).1 = b
  ∨ ∃ x', b = (os_path.splitext b).1 +:+ String "." x'.
Proof.
  intros Hb. unfold os_path.splitext. rewrite (split_no_sep b Hb).
  destruct (os_path.split_at_last_dot b) as [[root ext]|] eqn:Hdot; [|by left].
  destruct (os_path.all_chars os_path.is_dot root); [by left|].
  right. apply split_at_last_dot_Some in Hdot as [-> [x' ->]].
  by exists x'.
Qed.

(** With the default prefix, no part name is the input path. *)
Lemma default_prefix_part_not_input (input_path : string) (n : Z) :
  default_prefix input_path +:+ "_part" +:+ pretty n +:+ ".pdf" ≠ input_path.
Proof.
  intros Heq.
  set (b := os_path.basename input_path).
  set (root := (os_path.splitext b).1).
  set (suffix := "_part" +:+ pretty n +:+ ".pdf").
  assert (no_sep b = true) as Hb by apply split_snd_no_sep.
  assert (no_sep suffix = true) as Hsuffix.
  { unfold suffix. by rewrite !no_sep_app, no_sep_pretty_Z. }
  assert (root = b ∨ ∃ x', b = root +:+ String "." x') as Hroot
    by (by apply splitext_root).
  assert (no_sep root = true) as Hroot_sep.
  { destruct Hroot as [->|[x' Hx]]; [done|].
    rewrite Hx, no_sep_app in Hb. by apply andb_true_iff in Hb as [? _]. }
  assert (root +:+ suffix = b) as Hbase.
  { change (default_prefix input_path +:+ suffix = input_path) in Heq.
    unfold b at 1. rewrite <- Heq at 1. symmetry.
    by apply basename_join_app. }
  destruct Hroot as [Hroot|[x' Hx]].
  - rewrite Hroot in Hbase. apply (f_equal String.length) in Hbase.
    rewrite string_app_length in Hbase. unfold suffix in Hbase.
    rewrite !string_app_length in Hbase. simpl in Hbase. lia.
  - rewrite Hx in Hbase. apply String.app_inj in Hbase.
    unfold suffix in Hbase. by rewrite string_app_cons in Hbase.
Qed.

(** X10: called without a prefix, [split_pdf] never writes over its
    input: no part name built from the default prefix is the input path,
    and however the call ends the file at the input path is as before and
    was opened only for reading. *)
Theorem split_default_prefix_keeps_input e (input_path : string) (max_size_mb : Z)
    st (r : result (list string)) st' :
  split_pdf e input_path max_size_mb None st = (r, st') →
  (∀ n : Z, default_prefix input_path +:+ "_part" +:+ pretty n +:+ ".pdf"
            ≠ input_path)
  ∧ files st' !! input_path = files st !! input_path
  ∧ ∃ new, events_since st st' new
      ∧ ∀ m, EvOpen input_path m ∈ new → m = RB.
Proof.
  intros Hrun. split; [apply default_prefix_part_not_input|].
  destruct (split_pdf_intact e input_path max_size_mb None st r st') as [Hs Hl].
  - intros n. apply default_prefix_part_not_input.
  - done.
  - split; [exact Hs | by apply read_only_elim].
Qed.

(** ** The two modes of [main] *)

(** X11: for an existing input and a split size other than zero, [main]
    (not verbose) is [split_pdf] on the input, the size and the prefix:
    it returns when [split_pdf] does, and when [split_pdf] raises it
    prints "Error: " and [str] of the exception ([exn_str]: the message
    the program built it with, or the library's wording as the
    environment gives it) on the error stream and leaves with status
    1. *)
Theorem main_runs_split e (a : args) (n : Z) st :
  path_exists st (a_input a) = true →
  a_split a = Some n → n ≠ 0 → a_verbose a = false →
  main e a st
  = match split_pdf e (a_input a) n (a_prefix a) (add_log (EvStat (a_input a)) st) with
    | (Ok _, st1) => (Ok tt, st1)
    | (Raise ex, st1) =>
        (Raise (SystemExit 1), add_stderr ("Error: " +:+ exn_str e ex) st1)
    end.
Proof.
  intros Hex Hsplit Hn Hv. rewrite (main_split_mode e a n st) by done.
  destruct (split_pdf e (a_input a) n (a_prefix a) _) as [[paths|ex] st1] eqn:Hrun;
    [done|].
  by rewrite (raises_Exception_split_pdf _ _ _ _ _ _ _ Hrun).
Qed.

(** X12: for an existing input, no split size (or the split size zero)
    and a non-empty output path, [main] (not verbose) is [compress_pdf] on
    the input, the output and the quality name: it returns when
    [compress_pdf] does, and when [compress_pdf] raises it prints "Error: "
    and [str] of the exception ([exn_str]: the message the program built
    it with, or the library's wording as the environment gives it) on the
    error stream and leaves with status 1. *)
Theorem main_runs_compress e (a : args) (output : string) st :
  path_exists st (a_input a) = true →
  truthy_int (a_split a) = false →
  a_output a = Some output → output ≠ "" → a_verbose a = false →
  main e a st
  = match compress_pdf e (a_input a) output (a_quality a)
            (add_log (EvStat (a_input a)) st) with
    | (Ok _, st1) => (Ok tt, st1)
    | (Raise ex, st1) =>
        (Raise (SystemExit 1), add_stderr ("Error: " +:+ exn_str e ex) st1)
    end.
Proof.
  intros Hex Hsplit Hout Hne Hv. unfold main.
  rewrite (bind_run_Ok _ _ _ _ _ (exists_run _ _)), Hex. simpl.
  rewrite Hsplit, Hout, Hv. simpl.
  rewrite bool_decide_eq_false_2 by done. simpl.
  unfold try_except. unfold_monad. simpl.
  destruct (compress_pdf e (a_input a) output (a_quality a) _)
    as [[[]|ex] st1] eqn:Hrun; simpl; [done|].
  by rewrite (raises_Exception_compress_pdf _ _ _ _ _ _ _ Hrun).
Qed.

(** X13: for an existing input, no split size (or the split size zero)
    and no output path (or an empty one), [main] prints "Error: Output
    path required for compression." on the error stream and leaves with
    status 1; the existence test of the input is its only system call. *)
Theorem main_requires_output e (a : args) st :
  path_exists st (a_input a) = true →
  truthy_int (a_split a) = false →
  truthy_str (a_output a) = false →
  (main e a st).1 = Raise (SystemExit 1)
  ∧ stderr (main e a st).2
    = "Error: Output path required for compression." :: stderr st
  ∧ files (main e a st).2 = files st
  ∧ dirs (main e a st).2 = dirs st
  ∧ log (main e a st).2 = EvStat (a_input a) :: log st.
Proof.
  intros Hex Hsplit Hout.
  by rewrite (main_compress_needs_output e a st Hex Hsplit Hout).
Qed.

(** ** Inputs that cannot be read *)


(** X15: [split_pdf] on an input it cannot read.  If the path names
    nothing, the call raises [FileNotFoundError] after the failed open
    alone.  If the file is longer than the threshold and is not a PDF,
    the call raises the reader's error after the open and the size query
    alone.  In both cases no file or directory is created. *)
Theorem split_unreadable_input e (input_path : string) (max_size_mb : Z)
    (output_prefix : option string) st :
  (files st !! input_path = None → input_path ∉ dirs st →
   split_pdf e input_path max_size_mb output_prefix st
   = (Raise (FileNotFoundError input_path),
      add_log (EvOpen input_path RB) st))
  ∧ (∀ f, files st !! input_path = Some f → f_doc f = None →
          max_size_mb * 1024 * 1024 < Z.of_N (f_size f) →
          split_pdf e input_path max_size_mb output_prefix st
          = (Raise (PdfReadError input_path),
             add_log (EvStat input_path) (add_log (EvOpen input_path RB) st))).
Proof.
  split.
  - intros Hf Hd. unfold split_pdf, open_rb. unfold_monad. simpl.
    rewrite Hf. by rewrite bool_decide_eq_false_2.
  - intros f Hf Hdoc Hbig. unfold split_pdf. cbv zeta.
    erewrite bind_run_Ok; [|by apply open_rb_Some].
    erewrite bind_run_Ok; [|by apply getsize_Some].
    destruct (Z.leb_spec (Z.of_N (f_size f)) (max_size_mb * 1024 * 1024)); [lia|].
    unfold PdfReader. rewrite Hdoc. reflexivity.
Qed.

(** X16: [compress_pdf] on an input it cannot read.  With a valid quality
    name and the scratch directory created, a missing input (whose path
    is not the scratch directory's) makes the call raise
    [FileNotFoundError], and a file that is not a PDF makes it
    raise the reader's error; in both cases the system calls are the
    creation of the scratch directory, the open of the input and the
    removal of the scratch directory: nothing is written and the engine
    is not even looked for. *)
Theorem compress_unreadable_input e (input_path output_path quality : string)
    st (d : string) st1 (r : result unit) st' :
  quality ∈ ["low"; "medium"; "high"] →
  mkdtemp e st = (Ok d, st1) →
  compress_pdf e input_path output_path quality st = (r, st') →
  (files st !! input_path = None → input_path ∉ dirs st → input_path ≠ d →
   r = Raise (FileNotFoundError input_path)
   ∧ events_since st st' [EvRmtree d; EvOpen input_path RB; EvMkdtemp d])
  ∧ (∀ f, files st !! input_path = Some f → f_doc f = None →
          r = Raise (PdfReadError input_path)
          ∧ events_since st st' [EvRmtree d; EvOpen input_path RB; EvMkdtemp d]).
Proof.
  intros [s Hs]%quality_settings_Some Hmk Hrun.
  unfold compress_pdf in Hrun. rewrite Hs in Hrun.
  rewrite (bind_run_Ok _ _ _ _ _ Hmk) in Hrun.
  apply mkdtemp_Ok in Hmk as (Hex & _ & _ & ->).
  unfold try_finally, rmtree in Hrun. split.
  - intros Hf Hd Hne. unfold open_rb in Hrun. unfold_monad. simpl in Hrun.
    rewrite Hf in Hrun.
    rewrite bool_decide_eq_false_2 in Hrun
      by (rewrite elem_of_union, elem_of_singleton; by intros [?|?]).
    simpl in Hrun. by injection Hrun as <- <-.
  - intros f Hf Hdoc. unfold open_rb, PdfReader in Hrun.
    unfold_monad. simpl in Hrun. rewrite Hf in Hrun. simpl in Hrun.
    rewrite Hdoc in Hrun. by injection Hrun as <- <-.
Qed.

(** ** When [split_pdf] goes through *)

Lemma estimate_page_size_run e (page : Page) st :
  path_exists st (tmp_names e (tmp_seq st)) = false →
  write_outcome_at e (tmp_names e (tmp_seq st)) = WriteOk →
  ∃ st1, estimate_page_size e page st = (Ok (written_size e [page]), st1)
         ∧ files st1 = files st ∧ dirs st1 = dirs st.
Proof.
  intros Hex Hw.
  destruct (estimate_page_size e page st) as [r st1] eqn:Hrun.
  exists st1. pose proof (estimate_page_size_files e page st r st1 Hrun) as [Hf Hd].
  split; [|done]. f_equal. revert Hrun.
  unfold estimate_page_size. unfold_calls. unfold_monad. simpl.
  replace (path_exists (bump_tmp st) (tmp_names e (tmp_seq st))) with false
    by (by rewrite <- Hex).
  simpl. rewrite Hw. simpl. rewrite lookup_insert_eq. simpl.
  by intros [= <- _].
Qed.

Section Succeeds.

Context (e : env Page) (output_prefix : string) (st0 : state Page).
Context (Hwrites : ∀ p, write_outcome_at e p = WriteOk).
Context (Hfresh : ∀ k, path_exists st0 (tmp_names e k) = false).
Context (Htemp : ∀ k n, tmp_names e k ≠ part_path output_prefix n).
Context (Hparts : ∀ n, part_path output_prefix n ∉ dirs st0).

Lemma still_fresh st (k : nat) :
  frame_except (is_part_path output_prefix) st0 st →
  path_exists st (tmp_names e k) = false.
Proof.
  intros [Hd Hf]. pose proof (Hfresh k) as Hk. unfold path_exists in *.
  rewrite Hd, Hf; [done|]. intros [n Hn]. by apply (Htemp k n).
Qed.

Lemma write_part_run (n : Z) (writer : list Page) st :
  frame_except (is_part_path output_prefix) st0 st →
  ∃ st1, write_pdf e (part_path output_prefix n) writer st = (Ok tt, st1)
         ∧ frame_except (is_part_path output_prefix) st0 st1.
Proof.
  intros Hframe. eexists. split.
  - apply write_pdf_Ok; [|apply Hwrites]. destruct Hframe as [-> _]. apply Hparts.
  - etrans; [exact Hframe|]. split; [done|]. intros p Hp. simpl.
    rewrite !lookup_insert_ne; [done|by intros <-; apply Hp; eexists..].
Qed.

Lemma split_step_succeeds (max_size_bytes : Z) (page : Page)
    (v : split_vars Page) st :
  frame_except (is_part_path output_prefix) st0 st →
  ∃ v' st', split_step e max_size_bytes output_prefix page v st = (Ok v', st')
            ∧ frame_except (is_part_path output_prefix) st0 st'.
Proof.
  intros Hframe.
  destruct (estimate_page_size_run e page st) as (st1 & Hest & Hf1 & Hd1);
    [by apply still_fresh | apply Hwrites |].
  assert (frame_except (is_part_path output_prefix) st0 st1) as Hframe1.
  { destruct Hframe as [Hd Hf]. split; [by rewrite Hd1|].
    intros p Hp. by rewrite Hf1, Hf. }
  unfold split_step. rewrite (bind_run_Ok _ _ _ _ _ Hest).
  destruct (_ && _).
  - destruct (write_part_run (current_part v) (current_writer v) st1 Hframe1)
      as (st2 & Hw & Hframe2).
    erewrite bind_run_Ok; [|by erewrite bind_run_Ok by exact Hw].
    by eexists _, _.
  - erewrite bind_run_Ok; [|reflexivity]. by eexists _, _.
Qed.

Lemma split_loop_succeeds (max_size_bytes : Z) (pages : list Page)
    (v : split_vars Page) st :
  frame_except (is_part_path output_prefix) st0 st →
  ∃ v' st', split_loop_given e max_size_bytes output_prefix pages v st = (Ok v', st')
            ∧ frame_except (is_part_path output_prefix) st0 st'.
Proof.
  revert v st. induction pages as [|page rest IH]; intros v st Hframe.
  - by exists v, st.
  - destruct (split_step_succeeds max_size_bytes page v st Hframe)
      as (v1 & st1 & Hstep & Hframe1).
    change (split_loop_given e max_size_bytes output_prefix (page :: rest) v)
      with (split_step e max_size_bytes output_prefix page v
            ≫= split_loop_given e max_size_bytes output_prefix rest).
    rewrite (bind_run_Ok _ _ _ _ _ Hstep). by apply IH.
Qed.

End Succeeds.

(** X17: [split_pdf] goes through when the world lets it: if the input
    is a PDF, no write fails, the names [tempfile] picks are unused and
    are not part names, no part name is a directory and no part name is
    the input path, then the call returns a list of paths. *)
Theorem split_pdf_succeeds e (input_path : string) (max_size_mb : Z)
    (output_prefix : option string) st f (pages : list Page) :
  files st !! input_path = Some f →
  f_doc f = Some pages →
  (∀ p, write_outcome_at e p = WriteOk) →
  (∀ k, path_exists st (tmp_names e k) = false) →
  (∀ (k : nat) (n : Z),
     tmp_names e k ≠ default (default_prefix input_path) output_prefix
                     +:+ "_part" +:+ pretty n +:+ ".pdf") →
  (∀ n : Z, default (default_prefix input_path) output_prefix
            +:+ "_part" +:+ pretty n +:+ ".pdf" ∉ dirs st) →
  (∀ n : Z, default (default_prefix input_path) output_prefix
            +:+ "_part" +:+ pretty n +:+ ".pdf" ≠ input_path) →
  ∃ paths st', split_pdf e input_path max_size_mb output_prefix st = (Ok paths, st').
Proof.
  intros Hf Hdoc Hwrites Hfresh Htemp Hparts Hne. unfold split_pdf. cbv zeta.
  erewrite bind_run_Ok; [|by apply open_rb_Some].
  erewrite bind_run_Ok; [|by apply getsize_Some].
  destruct (_ <=? _); [by eexists _, _|].
  unfold PdfReader. rewrite Hdoc. erewrite bind_run_Ok; [|reflexivity].
  rewrite (bind_run_Ok _ _ _ _ _ (log_mark_run _)).
  set (prefix := default (default_prefix input_path) output_prefix) in *.
  assert (frame_except (is_part_path prefix) st
            (add_log (EvStat input_path) (add_log (EvOpen input_path RB) st)))
    as Hframe by done.
  destruct (split_loop_succeeds e prefix st Hwrites Hfresh Htemp Hparts
              (max_size_mb * 1024 * 1024) pages (mkVars [] 1 [] 0) _ Hframe)
    as (v & st1 & Hloop & Hframe1).
  rewrite <- (split_loop_intact e _ prefix input_path pages _
                (add_log (EvStat input_path) (add_log (EvOpen input_path RB) st)))
    in Hloop by (done || reflexivity).
  rewrite (bind_run_Ok _ _ _ _ _ Hloop).
  destruct (_ >? _); [|by eexists _, _].
  destruct (write_part_run e prefix st Hwrites Hparts (current_part v)
              (current_writer v) st1 Hframe1) as (st2 & Hw & _).
  rewrite (bind_run_Ok _ _ _ _ _ Hw). by eexists _, _.
Qed.

End Proofs.

(** C7 at the input [-s 0]: a split size is given, the input exists, and
    [main] does not split.  Without [-o] it stops with status 1 and the
    message of compression mode; with [-o] it compresses: the engine's
    output is at the output path and no part file is written. *)
Theorem main_split_zero_compresses :
  let a := mkArgs "/d/in.pdf" None "medium" (Some 0) None false in
  let a' := mkArgs "/d/in.pdf" (Some "/d/out.pdf") "medium" (Some 0) None false in
  let run := main (demo_env true None) a demo_state in
  let run' := main (demo_env true None) a' demo_state in
  exit_status run.1 = 1
  ∧ stderr run.2 = ["Error: Output path required for compression."]
  ∧ files run.2 = files demo_state
  ∧ exit_status run'.1 = 0
  ∧ files run'.2 !! "/d/out.pdf" = gs_output (demo_env true None)
  ∧ files run'.2 !! "/d/in_part1.pdf" = None.
Proof. vm_compute. repeat split. Qed.

(** * The properties at work on the concrete world *)

(** C8 as the spec words it fails: with the engine missing and an unknown
    quality name, the call raises the invalid-quality [ValueError], not the
    error of the missing engine. *)
Lemma missing_engine_claim_fails :
  ¬ (∀ (e : env nat) (input_path output_path quality : string) (st : state nat),
       gs_on_path e = false →
       (compress_pdf e input_path output_path quality st).1
       = Raise (RuntimeError "Ghostscript (gs) not found. Please install it first.")).
Proof.
  intros H.
  specialize (H (demo_env false None) "/d/in.pdf" "/d/out.pdf" "ultra"
                demo_state eq_refl).
  vm_compute in H. discriminate H.
Qed.

Lemma preset_step_function_witness : _get_gs_preset 100 60 = "ebook".
Proof.
  apply (proj1 (proj2 (preset_step_function 100 60))). lia.
Defined.

Lemma compress_rejects_unknown_quality_witness :
  compress_pdf (demo_env true None) "/d/in.pdf" "/d/out.pdf" "ultra" demo_state
  = (Raise (ValueError "Invalid quality level. Choose from ['low', 'medium', 'high']"),
     demo_state).
Proof.
  apply compress_rejects_unknown_quality.
  apply (bool_decide_unpack _). vm_compute. exact I.
Defined.

Lemma split_short_circuit_witness :
  ∃ st',
    split_pdf (demo_env true None) "/d/in.pdf" 50 None demo_state
    = (Ok ["/d/in.pdf"], st')
    ∧ files st' = files demo_state
    ∧ dirs st' = dirs demo_state
    ∧ tmp_seq st' = tmp_seq demo_state
    ∧ events_since demo_state st' [EvStat "/d/in.pdf"; EvOpen "/d/in.pdf" RB].
Proof.
  apply (split_short_circuit (demo_env true None) "/d/in.pdf" 50 None demo_state
           (mkFile (Some (seq 1 10)) 52428800)).
  - reflexivity.
  - simpl. lia.
Defined.

Lemma compress_removes_scratch_witness :
  let run := compress_pdf (demo_env true (Some "exit status 1"))
               "/d/in.pdf" "/d/out.pdf" "low" demo_state in
  ∃ new, events_since demo_state run.2 new
    ∧ ∀ d, EvMkdtemp d ∈ new →
        (d ∉ dirs run.2)
        ∧ ∀ p, under d p = true → files run.2 !! p = None ∧ (p ∉ dirs run.2).
Proof.
  intros run.
  apply (compress_removes_scratch (demo_env true (Some "exit status 1"))
           "/d/in.pdf" "/d/out.pdf" "low" demo_state run.1 run.2).
  - apply (bool_decide_unpack _). vm_compute. exact I.
  - vm_compute. reflexivity.
Defined.

Lemma compress_missing_engine_witness :
  (compress_pdf (demo_env false None) "/d/in.pdf" "/d/out.pdf" "low" demo_state).1
  = Raise (RuntimeError "Ghostscript (gs) not found. Please install it first.").
Proof.
  set (run := compress_pdf (demo_env false None) "/d/in.pdf" "/d/out.pdf" "low"
                demo_state).
  assert (gs_on_path (demo_env false None) = false) as Hgs by reflexivity.
  assert (run = (run.1, run.2)) as Hrun by (vm_compute; reflexivity).
  apply (proj2 (compress_missing_engine (demo_env false None)
                  "/d/in.pdf" "/d/out.pdf" "low" demo_state run.1 run.2 Hgs Hrun)
           "/tmp/tmp0" (mkdtemp (demo_env false None) demo_state).2
           (mkFile (Some (seq 1 10)) 52428800) (seq 1 10)).
  - apply (bool_decide_unpack _). vm_compute. exact I.
  - vm_compute. reflexivity.
  - reflexivity.
  - reflexivity.
  - reflexivity.
Defined.


(** The same call when the reader rejects what it finds: the call raises
    after it has written the first part over its input, which is left
    holding pages 1 to 4, and pages 6 to 10 are in no file. *)
Example split_onto_input_raises :
  let run := split_pdf (demo_env_reading true None None) "/d/in_part1.pdf" 20
               (Some "/d/in") demo_state_collision in
  run.1 = Raise (PdfReadError "/d/in_part1.pdf")
  ∧ files run.2
    = {[ "/d/in_part1.pdf" := mkFile (Some (seq 1 4)) 20971520 ]}.
Proof. vm_compute. by split. Qed.


Lemma split_parts_within_budget_witness :
  let run := split_pdf (demo_env true None) "/d/in.pdf" 20 None demo_state in
  ∃ doc : list nat,
    files run.2 !! "/d/in_part2.pdf" = Some (pdf_file (demo_env true None) doc)
    ∧ (part_estimate (demo_env true None) doc ≤ 20 * 1024 * 1024
       ∨ ∃ page, doc = [page]
           ∧ 20 * 1024 * 1024 < estimate (demo_env true None) page)
    ∧ (∀ page, page ∈ doc →
         20 * 1024 * 1024 < estimate (demo_env true None) page → doc = [page])
    ∧ ((2 ≤ length doc)%nat
       → part_estimate (demo_env true None) doc ≤ 20 * 1024 * 1024).
Proof.
  intros run.
  apply (split_parts_within_budget (demo_env true None) "/d/in.pdf" 20 None
           demo_state (mkFile (Some (seq 1 10)) 52428800) (seq 1 10)
           ["/d/in_part1.pdf"; "/d/in_part2.pdf"; "/d/in_part3.pdf"] run.2).
  - reflexivity.
  - reflexivity.
  - simpl. lia.
  - vm_compute. reflexivity.
  - apply (bool_decide_unpack _). vm_compute. exact I.
Defined.

Lemma input_left_intact_witness :
  let run := compress_pdf (demo_env true None) "/d/in.pdf" "/d/out.pdf" "high"
               demo_state in
  let run' := split_pdf (demo_env true None) "/d/in.pdf" 20 (Some "/d/out")
                demo_state in
  (files run.2 !! "/d/in.pdf" = files demo_state !! "/d/in.pdf"
   ∧ ∃ new, events_since demo_state run.2 new
       ∧ ∀ m, EvOpen "/d/in.pdf" m ∈ new → m = RB)
  ∧ (files run'.2 !! "/d/in.pdf" = files demo_state !! "/d/in.pdf"
     ∧ ∃ new, events_since demo_state run'.2 new
         ∧ ∀ m, EvOpen "/d/in.pdf" m ∈ new → m = RB).
Proof.
  intros run run'. split.
  - apply (proj1 (input_left_intact (demo_env true None) "/d/in.pdf")
             "/d/out.pdf" "high" demo_state run.1 run.2).
    + discriminate.
    + vm_compute. reflexivity.
  - apply (proj2 (input_left_intact (demo_env true None) "/d/in.pdf")
             20 (Some "/d/out") demo_state run'.1 run'.2).
    + intros n Heq. simpl in Heq. discriminate Heq.
    + vm_compute. reflexivity.
Defined.

(** * The further properties at work on the concrete world *)

Lemma split_pdf_frame_witness :
  let run := split_pdf (demo_env true None) "/d/in.pdf" 20 None demo_state in
  dirs run.2 = dirs demo_state
  ∧ ∀ p, (∀ n : Z, p ≠ default (default_prefix "/d/in.pdf") None
                        +:+ "_part" +:+ pretty n +:+ ".pdf") →
         files run.2 !! p = files demo_state !! p.
Proof.
  intros run.
  apply (split_pdf_frame (demo_env true None) "/d/in.pdf" 20 None demo_state
           run.1 run.2).
  vm_compute. reflexivity.
Defined.

Lemma compress_pdf_frame_witness :
  let run := compress_pdf (demo_env true None) "/d/in.pdf" "/d/out.pdf" "medium"
               demo_state in
  dirs run.2 = dirs demo_state
  ∧ ∀ p, p ≠ "/d/out.pdf" → files run.2 !! p = files demo_state !! p.
Proof.
  intros run.
  apply (compress_pdf_frame (demo_env true None) "/d/in.pdf" "/d/out.pdf" "medium"
           demo_state run.1 run.2).
  vm_compute. reflexivity.
Defined.

Lemma compress_engine_failure_witness :
  (compress_pdf (demo_env true (Some "exit status 1")) "/d/in.pdf" "/d/out.pdf"
     "high" demo_state).1
  = Raise (RuntimeError ("Ghostscript compression failed: " +:+ "exit status 1")).
Proof.
  apply (compress_engine_failure (demo_env true (Some "exit status 1"))
           "/d/in.pdf" "/d/out.pdf" "high" demo_state "/tmp/tmp0"
           (mkdtemp (demo_env true (Some "exit status 1")) demo_state).2
           (mkFile (Some (seq 1 10)) 52428800) (seq 1 10) "exit status 1").
  - apply (bool_decide_unpack _). vm_compute. exact I.
  - vm_compute. reflexivity.
  - reflexivity.
  - reflexivity.
  - reflexivity.
  - reflexivity.
  - reflexivity.
Defined.

Lemma compress_engine_success_witness :
  let run := compress_pdf (demo_env true None) "/d/in.pdf" "/d/out.pdf" "low"
               demo_state in
  run.1 = Ok tt
  ∧ files run.2 !! "/d/out.pdf" = Some (mkFile (Some (seq 1 10)) 1000).
Proof.
  intros run.
  apply (compress_engine_success (demo_env true None)
           "/d/in.pdf" "/d/out.pdf" "low" demo_state "/tmp/tmp0"
           (mkdtemp (demo_env true None) demo_state).2
           (mkFile (Some (seq 1 10)) 52428800) (seq 1 10)).
  - apply (bool_decide_unpack _). vm_compute. exact I.
  - vm_compute. reflexivity.
  - reflexivity.
  - reflexivity.
  - reflexivity.
  - reflexivity.
  - reflexivity.
  - vm_compute. reflexivity.
Defined.

Lemma compress_spawns_preset_witness :
  let run := compress_pdf (demo_env true None) "/d/in.pdf" "/d/out.pdf" "low"
               demo_state in
  ∃ new, events_since demo_state run.2 new
    ∧ ∀ cmd, EvSpawn cmd ∈ new →
        ∃ d preset,
          EvMkdtemp d ∈ new
          ∧ preset_of_quality "low" = Some preset
          ∧ preset ∈ ["screen"; "ebook"; "printer"]
          ∧ cmd = gs_command preset "/d/out.pdf" (os_path.join d "temp.pdf").
Proof.
  intros run.
  apply (compress_spawns_preset (demo_env true None) "/d/in.pdf" "/d/out.pdf"
           "low" demo_state run.1 run.2).
  - apply (bool_decide_unpack _). vm_compute. exact I.
  - vm_compute. reflexivity.
Defined.

Lemma split_parts_greedy_witness :
  let run := split_pdf (demo_env true None) "/d/in.pdf" 20 None demo_state in
  (3 ≤ 10)%nat
  ∧ ∃ docs : list (list nat),
      Forall2 (λ path doc, files run.2 !! path = Some (pdf_file (demo_env true None) doc))
        ["/d/in_part1.pdf"; "/d/in_part2.pdf"; "/d/in_part3.pdf"] docs
      ∧ Forall (λ doc, doc ≠ []) docs
      ∧ ∀ (i : nat) (doc : list nat) (page : nat) (rest : list nat),
          docs !! i = Some doc → docs !! S i = Some (page :: rest) →
          20 * 1024 * 1024
          < part_estimate (demo_env true None) doc
            + estimate (demo_env true None) page.
Proof.
  intros run.
  apply (split_parts_greedy (demo_env true None) "/d/in.pdf" 20 None demo_state
           (mkFile (Some (seq 1 10)) 52428800) (seq 1 10)
           ["/d/in_part1.pdf"; "/d/in_part2.pdf"; "/d/in_part3.pdf"] run.2).
  - reflexivity.
  - reflexivity.
  - simpl. lia.
  - vm_compute. reflexivity.
Defined.

Lemma split_single_part_witness :
  let run := split_pdf (demo_env true None) "/d/in.pdf" 16 None
               demo_state_overhead in
  ["/d/in_part1.pdf"] = [default (default_prefix "/d/in.pdf") None +:+ "_part1.pdf"]
  ∧ files run.2 !! (default (default_prefix "/d/in.pdf") None +:+ "_part1.pdf")
    = Some (pdf_file (demo_env true None) (seq 1 3)).
Proof.
  intros run.
  apply (split_single_part (demo_env true None) "/d/in.pdf" 16 None
           demo_state_overhead (mkFile (Some (seq 1 3)) 20971520) (seq 1 3)
           ["/d/in_part1.pdf"] run.2).
  - reflexivity.
  - reflexivity.
  - simpl. lia.
  - vm_compute. reflexivity.
  - discriminate.
  - vm_compute. discriminate.
Defined.

Lemma main_outcome_witness :
  let run := main (demo_env false None)
               (mkArgs "/d/in.pdf" (Some "/d/out.pdf") "medium" None None true)
               demo_state in
  (run.1 = Ok tt ∧ stderr run.2 = stderr demo_state)
  ∨ (run.1 = Raise (SystemExit 1)
     ∧ ∃ msg, stderr run.2 = ("Error: " +:+ msg) :: stderr demo_state).
Proof.
  intros run.
  apply (main_outcome (demo_env false None)
           (mkArgs "/d/in.pdf" (Some "/d/out.pdf") "medium" None None true)
           demo_state run.1 run.2).
  vm_compute. reflexivity.
Defined.

Lemma main_missing_input_witness :
  main (demo_env true None)
    (mkArgs "/d/none.pdf" None "medium" (Some 20) None false) demo_state
  = (Raise (SystemExit 1),
     add_stderr ("Error: Input file '" +:+ "/d/none.pdf" +:+ "' not found.")
       (add_log (EvStat "/d/none.pdf") demo_state)).
Proof.
  apply (main_missing_input (demo_env true None)
           (mkArgs "/d/none.pdf" None "medium" (Some 20) None false) demo_state).
  vm_compute. reflexivity.
Defined.

Lemma split_default_prefix_keeps_input_witness :
  let run := split_pdf (demo_env true None) "/d/in.pdf" 20 None demo_state in
  (∀ n : Z, default_prefix "/d/in.pdf" +:+ "_part" +:+ pretty n +:+ ".pdf"
            ≠ "/d/in.pdf")
  ∧ files run.2 !! "/d/in.pdf" = files demo_state !! "/d/in.pdf"
  ∧ ∃ new, events_since demo_state run.2 new
      ∧ ∀ m, EvOpen "/d/in.pdf" m ∈ new → m = RB.
Proof.
  intros run.
  apply (split_default_prefix_keeps_input (demo_env true None) "/d/in.pdf" 20
           demo_state run.1 run.2).
  vm_compute. reflexivity.
Defined.

Lemma main_runs_split_witness :
  main (demo_env true None)
    (mkArgs "/d/in.pdf" None "medium" (Some 20) None false) demo_state
  = match split_pdf (demo_env true None) "/d/in.pdf" 20 None
            (add_log (EvStat "/d/in.pdf") demo_state) with
    | (Ok _, st1) => (Ok tt, st1)
    | (Raise ex, st1) =>
        (Raise (SystemExit 1),
         add_stderr ("Error: " +:+ exn_str (demo_env true None) ex) st1)
    end.
Proof.
  apply (main_runs_split (demo_env true None)
           (mkArgs "/d/in.pdf" None "medium" (Some 20) None false) 20 demo_state).
  - vm_compute. reflexivity.
  - reflexivity.
  - lia.
  - reflexivity.
Defined.

Lemma main_runs_compress_witness :
  main (demo_env true None)
    (mkArgs "/d/in.pdf" (Some "/d/out.pdf") "medium" None None false) demo_state
  = match compress_pdf (demo_env true None) "/d/in.pdf" "/d/out.pdf" "medium"
            (add_log (EvStat "/d/in.pdf") demo_state) with
    | (Ok _, st1) => (Ok tt, st1)
    | (Raise ex, st1) =>
        (Raise (SystemExit 1),
         add_stderr ("Error: " +:+ exn_str (demo_env true None) ex) st1)
    end.
Proof.
  apply (main_runs_compress (demo_env true None)
           (mkArgs "/d/in.pdf" (Some "/d/out.pdf") "medium" None None false)
           "/d/out.pdf" demo_state).
  - vm_compute. reflexivity.
  - reflexivity.
  - reflexivity.
  - discriminate.
  - reflexivity.
Defined.

Lemma main_requires_output_witness :
  let run := main (demo_env true None)
               (mkArgs "/d/in.pdf" None "medium" None None false) demo_state in
  run.1 = Raise (SystemExit 1)
  ∧ stderr run.2
    = "Error: Output path required for compression." :: stderr demo_state
  ∧ files run.2 = files demo_state
  ∧ dirs run.2 = dirs demo_state
  ∧ log run.2 = EvStat "/d/in.pdf" :: log demo_state.
Proof.
  intros run.
  apply (main_requires_output (demo_env true None)
           (mkArgs "/d/in.pdf" None "medium" None None false) demo_state).
  - vm_compute. reflexivity.
  - reflexivity.
  - reflexivity.
Defined.


Lemma split_unreadable_input_witness :
  split_pdf (demo_env true None) "/d/none.pdf" 20 None demo_state
  = (Raise (FileNotFoundError "/d/none.pdf"),
     add_log (EvOpen "/d/none.pdf" RB) demo_state).
Proof.
  apply (proj1 (split_unreadable_input (demo_env true None) "/d/none.pdf" 20 None
                  demo_state)).
  - vm_compute. reflexivity.
  - apply (bool_decide_unpack _). vm_compute. exact I.
Defined.

Lemma compress_unreadable_input_witness :
  let run := compress_pdf (demo_env true None) "/d/none.pdf" "/d/out.pdf" "low"
               demo_state in
  run.1 = Raise (FileNotFoundError "/d/none.pdf")
  ∧ events_since demo_state run.2
      [EvRmtree "/tmp/tmp0"; EvOpen "/d/none.pdf" RB; EvMkdtemp "/tmp/tmp0"].
Proof.
  intros run.
  apply (proj1 (compress_unreadable_input (demo_env true None)
                  "/d/none.pdf" "/d/out.pdf" "low" demo_state "/tmp/tmp0"
                  (mkdtemp (demo_env true None) demo_state).2 run.1 run.2
                  ltac:(apply (bool_decide_unpack _); vm_compute; exact I)
                  ltac:(vm_compute; reflexivity)
                  ltac:(vm_compute; reflexivity))).
  - vm_compute. reflexivity.
  - apply (bool_decide_unpack _). vm_compute. exact I.
  - discriminate.
Defined.

Lemma split_pdf_succeeds_witness :
  ∃ paths st',
    split_pdf (demo_env true None) "/d/in.pdf" 20 None demo_state = (Ok paths, st').
Proof.
  apply (split_pdf_succeeds (demo_env true None) "/d/in.pdf" 20 None demo_state
           (mkFile (Some (seq 1 10)) 52428800) (seq 1 10)).
  - reflexivity.
  - reflexivity.
  - intros p. reflexivity.
  - intros k. unfold path_exists, demo_state. simpl.
    rewrite lookup_singleton_ne by discriminate. reflexivity.
  - intros k n. discriminate.
  - intros n. simpl. apply not_elem_of_empty.
  - intros n Heq. simpl in Heq. discriminate Heq.
Defined.
